(** * Bohamiann: SG-MCMC training loop and ensemble prediction

    A shallow embedding of [pybnn/bohamiann.py]: the default network of
    [get_default_network], the heteroscedastic loss [nll], the constructor,
    the [network_weights] property, [train] and [predict] of class
    [Bohamiann].

    Conventions of the embedding.
    - Tensors and numpy arrays hold floating-point numbers in the source.
      Here their entries are real numbers ([R]): arithmetic is exact and
      rounding, overflow and NaN are outside the model.
    - A tensor or array is a buffer in a store ([heap]); a Python reference
      to it is a location ([loc]).  The live parameters of the network and
      the arrays of a weight snapshot are locations, so in-place updates and
      aliasing are visible.
    - A method is a function from the world (trainer object, store, debug
      log) to an [outcome]: it returns, raises an exception, or never
      returns.  The world reached is kept when an exception is raised, as
      attributes assigned before the [raise] keep their values in Python.
    - The collaborators that are imported from other modules (network
      factory, sampler, automatic differentiation, normalization) are the
      fields of the class [Collaborators]. *)

From Stdlib Require Import Reals Lra Lia ZArith List String.
From stdpp Require Import base list relations.
Import ListNotations.

Local Open Scope nat_scope.

(** ** Exceptions and outcomes *)

Inductive exn : Type :=
| AssertionError (msg : string)
| UnboundLocalError (name : string)
| AttributeError (attr : string)
| IndexError
| ZeroDivisionError
| ValueError
| RuntimeError.

Inductive outcome (W A : Type) : Type :=
| Returns (a : A) (w : W)
| Raises (e : exn) (w : W)
| Hangs.

Arguments Returns {W A} a w.
Arguments Raises {W A} e w.
Arguments Hangs {W A}.

Definition M (W A : Type) : Type := W -> outcome W A.

Definition ret {W A} (a : A) : M W A := fun w => Returns a w.

Definition bind {W A B} (m : M W A) (k : A -> M W B) : M W B :=
  fun w =>
    match m w with
    | Returns a w' => k a w'
    | Raises e w' => Raises e w'
    | Hangs => Hangs
    end.

Definition raise {W A} (e : exn) : M W A := fun w => Raises e w.

Definition hang {W A} : M W A := fun _ => Hangs.

Definition get {W} : M W W := fun w => Returns w w.

Definition modify {W} (f : W -> W) : M W unit := fun w => Returns tt (f w).

Notation "x <- m ;; k" := (bind m (fun x => k))
  (at level 100, m at next level, right associativity).
Notation "m ;;; k" := (bind m (fun _ => k))
  (at level 100, right associativity).

(** The world an outcome ends in, when there is one. *)
Definition final_world {W A} (o : outcome W A) : option W :=
  match o with
  | Returns _ w => Some w
  | Raises _ w => Some w
  | Hangs => None
  end.

(** [for step in range(n)], with a loop-carried local value. *)
Fixpoint for_range {W A} (n : nat) (body : nat -> A -> M W A) (a : A) : M W A :=
  match n with
  | 0 => ret a
  | S k => a' <- for_range k body a ;; body k a'
  end.

(** [[f(x) for x in xs]] where [f] has effects. *)
Fixpoint for_each {W A B} (f : A -> M W B) (xs : list A) : M W (list B) :=
  match xs with
  | [] => ret []
  | x :: xs' => y <- f x ;; ys <- for_each f xs' ;; ret (y :: ys)
  end.

(** ** Column arithmetic *)

Definition Rsum (xs : list R) : R := foldr Rplus 0%R xs.

(** Elementwise binary operation on two column tensors of shapes (m,1) and
    (n,1), with the broadcasting rule of torch: equal sizes, or one of the
    two has a single row; any other pair of shapes is an error. *)
Definition broadcast (f : R -> R -> R) (a b : list R) : option (list R) :=
  if length a =? length b then Some (zip_with f a b)
  else if length a =? 1 then Some (map (f (hd 0%R a)) b)
  else if length b =? 1 then Some (map (fun x => f x (hd 0%R b)) a)
  else None.

(** ** The loss: [nll] (lines 47-61) *)

Definition nll (input : list (R * R)) (target : list R) : option R :=
  let batch_size := length input in
  let prediction_mean := map fst input in
  let log_prediction_variance := map snd input in
  let prediction_variance_inverse :=
    map (fun l => 1 / (exp l + 1e-16))%R log_prediction_variance in
  match broadcast Rminus target prediction_mean with
  | None => None
  | Some diff =>
    let mean_squared_error := map (fun d => d ^ 2)%R diff in
    match broadcast Rmult (map Ropp mean_squared_error)
                    (map (Rmult 0.5) prediction_variance_inverse) with
    | None => None
    | Some weighted =>
      match broadcast Rminus weighted
                      (map (Rmult 0.5) log_prediction_variance) with
      | None => None
      | Some terms =>
        let log_likelihood := Rsum terms in
        let log_likelihood := (log_likelihood / INR batch_size)%R in
        Some (- log_likelihood)%R
      end
    end
  end.

(** The per-example Gaussian log-likelihood as the specification words it,
    with the inverse variance [1/(exp(l) + 1e-16)]. *)
Definition inverse_variance (l : R) : R := (1 / (exp l + 1e-16))%R.

Definition log_likelihood_spec (mu l y : R) : R :=
  (- 0.5 * (y - mu) ^ 2 * inverse_variance l - 0.5 * l)%R.

(** ** Ensemble aggregation (lines 282-286) *)

(** [np.sum(a, axis=0)] and [np.mean(a, axis=0)] of an S x M array given as
    the list of its S rows. *)
Definition sum_axis0 (a : list (list R)) : list R :=
  match a with
  | [] => []
  | r :: rs => fold_left (zip_with Rplus) rs r
  end.

Definition mean_axis0 (a : list (list R)) : list R :=
  map (fun s => s / INR (length a))%R (sum_axis0 a).

(** [network_outputs] is S x M x 2: per snapshot, per test row, the pair
    (mean, log-variance). *)
Definition mean_prediction (network_outputs : list (list (R * R))) : list R :=
  mean_axis0 (map (map fst) network_outputs).

Definition variance_prediction (network_outputs : list (list (R * R))) : list R :=
  zip_with Rminus
    (mean_axis0 (map (map (fun o => fst o ^ 2 + exp (snd o))%R) network_outputs))
    (map (fun m => m ^ 2)%R (mean_prediction network_outputs)).

(** The estimator as the specification words it, at one test point, from the
    outputs of the S snapshots at that point. *)
Definition arithmetic_mean (xs : list R) : R := (Rsum xs / INR (length xs))%R.

Definition ensemble_mean_spec (pt : list (R * R)) : R :=
  arithmetic_mean (map fst pt).

Definition ensemble_variance_spec (pt : list (R * R)) : R :=
  (arithmetic_mean (map (fun o => fst o ^ 2 + exp (snd o)) pt)
   - ensemble_mean_spec pt ^ 2)%R.

(** The outputs of all snapshots at test point [j]. *)
Definition at_test_point (j : nat) (network_outputs : list (list (R * R)))
  : list (R * R) :=
  map (fun out => nth j out (0, 0)%R) network_outputs.

(** ** The store of tensors *)

(** A tensor is its buffer of entries, a reference is an index into the
    store, and the store is the sequence of the buffers allocated so far. *)
Abbreviation tensor := (list R) (only parsing).
Abbreviation loc := nat (only parsing).
Abbreviation heap := (list (list R)) (only parsing).

Definition load (h : heap) (l : loc) : tensor := default [] (h !! l).

(** The values behind a tuple of references. *)
Definition load_all (h : heap) (ls : list loc) : list tensor := map (load h) ls.

(** ** Collaborators imported by the module

    [get_network] gives an architecture and the initial values of its
    parameters, in the order of [parameters()]; [forward] is the network
    applied to one input row under given parameter values, with the two
    outputs (mean, log-variance).  [AdaptiveSGHMC] builds the sampler from
    the parameter values, [scale_grad], [num_burn_in_steps], [lr], [mdecay]
    and [noise]; [sampler_step] is [step()]: from the sampler's state, the
    parameter values and their gradients to the new state and the new
    parameter values, which [step()] writes into the parameters in place.
    [backward] is automatic differentiation: the gradient of a loss, given
    as a function of the parameter values, at given values.
    [zero_mean_unit_var_normalization] takes the optional stored (mean, std)
    and returns the normalized data with the (mean, std) used; it is
    elementwise, so the result has the rows of its argument. *)
Class Collaborators : Type := {
  network : Type;
  get_network : nat -> network * list tensor;
  forward : network -> list tensor -> list R -> R * R;
  sampler_state : Type;
  AdaptiveSGHMC : list tensor -> nat -> Z -> R -> R -> R -> sampler_state;
  sampler_step : sampler_state -> list tensor -> list tensor
                 -> sampler_state * list tensor;
  backward : (list tensor -> option R) -> list tensor -> list tensor;
  zero_mean_unit_var_normalization :
    list (list R) -> option (list R * list R)
    -> list (list R) * (list R * list R);
  zero_mean_unit_var_normalization_1d : list R -> list R * (R * R);
  normalization_rows : forall X stats,
    length (fst (zero_mean_unit_var_normalization X stats)) = length X;
  normalization_1d_rows : forall y,
    length (fst (zero_mean_unit_var_normalization_1d y)) = length y
}.

(** Modelled from the spec: [zero_mean_unit_var_unnormalization] of
    [pybnn.util.normalization], which is not among the sources; section 4.1
    gives it as [data * std + mean]. *)
Definition zero_mean_unit_var_unnormalization (data : list R) (mean std : R)
  : list R :=
  map (fun v => v * std + mean)%R data.

(** The same function on an M x 2 array of network outputs. *)
Definition zero_mean_unit_var_unnormalization_2d (data : list (R * R))
  (mean std : R) : list (R * R) :=
  map (fun o => (fst o * std + mean, snd o * std + mean)%R) data.

(** [len(DataLoader(dataset, batch_size=b))]: the last batch may be short. *)
Definition num_batches (n b : nat) : nat := (n + b - 1) / b.

(** Modelled from the spec: [infinite_dataloader] of
    [pybnn.util.infinite_dataloader], which is not among the sources; the
    spec has it repeat the finite sequence of mini-batches cyclically
    (sections 4.5 and 9).  The [i]-th item of the stream over a loader without
    shuffling, or [None] when the loader has no batch and the stream never
    yields. *)
Definition infinite_dataloader {A} (dataset : list A) (b : nat) (i : nat)
  : option (list A) :=
  let nb := num_batches (length dataset) b in
  if nb =? 0 then None
  else Some (take b (drop (b * (i mod nb)) dataset)).

(** ** The trainer object and the world *)

Section Model.
Context `{C : Collaborators}.

(** [self.model]: the architecture and the references to its parameters. *)
Record module : Type := {
  arch : network;
  parameters : list loc
}.

(** The attributes of a [Bohamiann] object.  [x_stats] is the pair
    ([x_mean], [x_std]) and [y_stats] the pair ([y_mean], [y_std]); [None]
    stands for attributes that have not been assigned, as is [model] before
    the first [train]. *)
Record Bohamiann : Type := {
  batch_size : Z;
  normalize_input : bool;
  normalize_output : bool;
  is_trained : bool;
  sampled_weights : list (list loc);
  x_stats : option (list R * list R);
  y_stats : option (R * R);
  model : option module
}.

(** The one message of [logging.debug] that the properties below read;
    the other debug messages are left out. *)
Inductive log_record : Type :=
| Recording_sample (step : Z).

Record world : Type := {
  self : Bohamiann;
  mem : heap;
  debug_log : list log_record
}.

Definition with_self (f : Bohamiann -> Bohamiann) (w : world) : world :=
  {| self := f (self w); mem := mem w; debug_log := debug_log w |}.

Definition with_mem (f : heap -> heap) (w : world) : world :=
  {| self := self w; mem := f (mem w); debug_log := debug_log w |}.

Definition logging_debug (r : log_record) (w : world) : world :=
  {| self := self w; mem := mem w; debug_log := debug_log w ++ [r] |}.

Definition set_sampled_weights (v : list (list loc)) (t : Bohamiann) : Bohamiann :=
  {| batch_size := batch_size t; normalize_input := normalize_input t;
     normalize_output := normalize_output t; is_trained := is_trained t;
     sampled_weights := v; x_stats := x_stats t; y_stats := y_stats t;
     model := model t |}.

Definition set_x_stats (v : option (list R * list R)) (t : Bohamiann) : Bohamiann :=
  {| batch_size := batch_size t; normalize_input := normalize_input t;
     normalize_output := normalize_output t; is_trained := is_trained t;
     sampled_weights := sampled_weights t; x_stats := v; y_stats := y_stats t;
     model := model t |}.

Definition set_y_stats (v : option (R * R)) (t : Bohamiann) : Bohamiann :=
  {| batch_size := batch_size t; normalize_input := normalize_input t;
     normalize_output := normalize_output t; is_trained := is_trained t;
     sampled_weights := sampled_weights t; x_stats := x_stats t; y_stats := v;
     model := model t |}.

Definition set_model (v : option module) (t : Bohamiann) : Bohamiann :=
  {| batch_size := batch_size t; normalize_input := normalize_input t;
     normalize_output := normalize_output t; is_trained := is_trained t;
     sampled_weights := sampled_weights t; x_stats := x_stats t;
     y_stats := y_stats t; model := v |}.

Definition set_is_trained (v : bool) (t : Bohamiann) : Bohamiann :=
  {| batch_size := batch_size t; normalize_input := normalize_input t;
     normalize_output := normalize_output t; is_trained := v;
     sampled_weights := sampled_weights t; x_stats := x_stats t;
     y_stats := y_stats t; model := model t |}.

(** ** The constructor (lines 65-104)

    [get_network] is the field of [Collaborators]; [metrics] is stored and
    never read. *)

Definition invalid_batch_size : string :=
  "Invalid batch size. Batches must contain at least a single sample.".

Definition __init__ (batch_size : Z) (normalize_input normalize_output : bool)
  : exn + Bohamiann :=
  if (batch_size >=? 1)%Z then
    inr {| batch_size := batch_size;
           normalize_input := normalize_input;
           normalize_output := normalize_output;
           is_trained := false;
           sampled_weights := [];
           x_stats := None; y_stats := None; model := None |}
  else inl (AssertionError invalid_batch_size).

(** ** The property [network_weights] (lines 106-149) *)

(** [np.asarray(torch.tensor(parameter.data).numpy())]: [torch.tensor]
    copies the data into a new buffer, which the array then shares. *)
Definition clone (p : loc) : M world loc :=
  fun w => Returns (length (mem w)) (with_mem (fun h => h ++ [load h p]) w).

(** [parameter.copy_(torch.from_numpy(sample))]: overwrites the buffer of
    the parameter with the contents of the array. *)
Definition copy_ (ps : loc * loc) : M world unit :=
  modify (with_mem (fun h => <[fst ps := load h (snd ps)]> h)).

Definition the_model : M world module :=
  w <- get ;;
  match model (self w) with
  | None => raise (AttributeError "model")
  | Some m => ret m
  end.

Definition network_weights : M world (list loc) :=
  m <- the_model ;;
  for_each clone (parameters m).

Definition set_network_weights (weights : list loc) : M world unit :=
  m <- the_model ;;
  (_ <- for_each copy_ (zip (parameters m) weights) ;; ret tt).

(** ** [train] (lines 151-263) *)

(** A local variable that is read before any assignment. *)
Definition local {A} (name : string) (v : option A) : M world A :=
  match v with
  | Some a => ret a
  | None => raise (UnboundLocalError name)
  end.

(** Allocation of the parameter tensors of a fresh network. *)
Definition allocate (v : tensor) : M world loc :=
  fun w => Returns (length (mem w)) (with_mem (fun h => h ++ [v]) w).

(** The values of the live parameters. *)
Definition parameter_values (m : module) : M world (list tensor) :=
  w <- get ;; ret (load_all (mem w) (parameters m)).

(** [sampler.step()] writes the new values into the parameters in place. *)
Definition update_parameters (m : module) (values : list tensor) : M world unit :=
  modify (with_mem (fun h =>
    fold_left (fun h' pv => <[fst pv := snd pv]> h') (zip (parameters m) values) h)).

(** The test of line 256, with the short-circuit of [and] and the
    [ZeroDivisionError] of [%]. *)
Definition keep_sample (step num_burn_in_steps keep_every : Z) : exn + bool :=
  if (step >? num_burn_in_steps)%Z then
    if (keep_every =? 0)%Z then inl ZeroDivisionError
    else inr ((step - num_burn_in_steps) mod keep_every =? 0)%Z
  else inr false.

(** One iteration of the loop (lines 227-261): draw the next batch, let the
    sampler rewrite the parameters from the gradient of the loss, and record
    a snapshot when line 256 says so.  The diagnostics printed when
    [verbose] is set change nothing and are left out, with the argument. *)
Definition train_step (m : module) (dataset : list (list R * R)) (b : nat)
    (keep_every num_burn_in_steps : Z)
    (step : nat) (sampler : sampler_state) : M world sampler_state :=
  match infinite_dataloader dataset b step with
  | None => hang
  | Some batch =>
    let x_batch := map fst batch in
    let y_batch := map snd batch in
    let loss := fun theta => nll (map (forward (arch m) theta) x_batch) y_batch in
    theta <- parameter_values m ;;
    match loss theta with
    | None => raise RuntimeError
    | Some _ =>
      let '(sampler', theta') := sampler_step sampler theta (backward loss theta) in
      update_parameters m theta' ;;;
      match keep_sample (Z.of_nat step) num_burn_in_steps keep_every with
      | inl e => raise e
      | inr false => ret sampler'
      | inr true =>
        modify (logging_debug (Recording_sample (Z.of_nat step))) ;;;
        weights <- network_weights ;;
        modify (with_self (fun t =>
          set_sampled_weights (sampled_weights t ++ [weights]) t)) ;;;
        ret sampler'
      end
    end
  end.

(** The whole call.  Lines 185-186 clear the store; lines 194-207 normalize
    and read the locals [x_train_] and [y_train_], which only the enabled
    branches assign; lines 209-214 build the data set ([TensorDataset]
    asserts equal sizes, [DataLoader] rejects a batch size below 1); lines
    216-223 build the model and the sampler; line 225 bounds the stream
    ([islice] rejects a negative count); lines 227-261 are the loop and
    line 263 sets [is_trained]. *)
Definition train (x_train : list (list R)) (y_train : list R)
    (num_steps keep_every num_burn_in_steps : Z) (lr noise mdecay : R)
  : M world unit :=
  modify (with_self (set_sampled_weights [])) ;;;
  let num_datapoints := length x_train in
  let input_dimensionality := length (hd [] x_train) in
  w <- get ;;
  x_train_ <-
    (if normalize_input (self w) then
       let '(x_, stats) := zero_mean_unit_var_normalization x_train None in
       modify (with_self (set_x_stats (Some stats))) ;;; ret (Some x_)
     else ret None) ;;
  x_train_ <- local "x_train_" x_train_ ;;
  y_train_ <-
    (if normalize_output (self w) then
       let '(y_, stats) := zero_mean_unit_var_normalization_1d y_train in
       modify (with_self (set_y_stats (Some stats))) ;;; ret (Some y_)
     else ret None) ;;
  y_train_ <- local "y_train_" y_train_ ;;
  if negb (length x_train_ =? length y_train_) then
    raise (AssertionError "Size mismatch between tensors")
  else if (batch_size (self w) <? 1)%Z then raise ValueError
  else
    let dataset := zip x_train_ y_train_ in
    let '(net, initial) := get_network input_dimensionality in
    ps <- for_each allocate initial ;;
    let m := {| arch := net; parameters := ps |} in
    modify (with_self (set_model (Some m))) ;;;
    theta <- parameter_values m ;;
    let sampler :=
      AdaptiveSGHMC theta num_datapoints num_burn_in_steps lr mdecay noise in
    if (num_steps <? 0)%Z then raise ValueError
    else
      (_ <- for_range (Z.to_nat num_steps)
              (train_step m dataset (Z.to_nat (batch_size (self w)))
                          keep_every num_burn_in_steps)
              sampler ;;
       modify (with_self (set_is_trained true))).

(** ** [predict] (lines 265-302) *)

(** Lines 271-274: restore the snapshot into the one model, then run it on
    the test rows. *)
Definition network_predict (x_test_ : list (list R)) (weights : list loc)
  : M world (list (R * R)) :=
  set_network_weights weights ;;;
  m <- the_model ;;
  theta <- parameter_values m ;;
  ret (map (forward (arch m) theta) x_test_).

(** The result is (mean, variance) with, when asked for, the mean columns
    of the individual networks.  [np.array] of an empty list has one
    dimension, so the index of line 282 raises [IndexError]. *)
Definition predict (x_test : list (list R)) (return_individual_predictions : bool)
  : M world (list R * list R * option (list (list R))) :=
  w <- get ;;
  x_test_ <-
    (if normalize_input (self w) then
       match x_stats (self w) with
       | None => raise (AttributeError "x_mean")
       | Some stats =>
         ret (fst (zero_mean_unit_var_normalization x_test (Some stats)))
       end
     else ret x_test) ;;
  network_outputs <-
    for_each (network_predict x_test_) (sampled_weights (self w)) ;;
  match network_outputs with
  | [] => raise IndexError
  | _ :: _ =>
    let mean := mean_prediction network_outputs in
    let variance := variance_prediction network_outputs in
    if normalize_output (self w) then
      match y_stats (self w) with
      | None => raise (AttributeError "y_mean")
      | Some (y_mean, y_std) =>
        let mean := zero_mean_unit_var_unnormalization mean y_mean y_std in
        let variance := map (fun v => v * y_std ^ 2)%R variance in
        let network_outputs :=
          map (fun out => zero_mean_unit_var_unnormalization_2d out y_mean y_std)
              network_outputs in
        ret (mean, variance,
             if return_individual_predictions
             then Some (map (map fst) network_outputs) else None)
      end
    else
      ret (mean, variance,
           if return_individual_predictions
           then Some (map (map fst) network_outputs) else None)
  end.

(** [Bohamiann(batch_size=..., ...).train(...)] from a given store. *)
Definition construct_and_train (batch_size : Z)
    (normalize_input normalize_output : bool) (h : heap)
    (x_train : list (list R)) (y_train : list R)
    (num_steps keep_every num_burn_in_steps : Z) (lr noise mdecay : R)
  : exn + outcome world unit :=
  match __init__ batch_size normalize_input normalize_output with
  | inl e => inl e
  | inr t =>
    inr (train x_train y_train num_steps keep_every num_burn_in_steps
               lr noise mdecay {| self := t; mem := h; debug_log := [] |})
  end.

End Model.

(** ** Derived notions used in the statements *)

Section Notions.
Context `{C : Collaborators}.

(** The values of the stored snapshots, in insertion order. *)
Definition stored_values (w : world) : list (list tensor) :=
  map (load_all (mem w)) (sampled_weights (self w)).

(** A snapshot fits the live parameters [ps] in store [h]: one array per
    parameter, each allocated and none of them a parameter's own buffer. *)
Definition snapshot_ok (h : heap) (ps : list loc) (snap : list loc) : Prop :=
  length snap = length ps /\
  Forall (fun l => l < length h /\ l ∉ ps) snap.

(** The invariant of a trainer that holds a model. *)
Definition well_formed (w : world) : Prop :=
  exists m, model (self w) = Some m /\
    NoDup (parameters m) /\
    Forall (fun p => p < length (mem w)) (parameters m) /\
    Forall (snapshot_ok (mem w) (parameters m)) (sampled_weights (self w)).

(** Two worlds that differ at most in the buffers of the parameters [ps]. *)
Definition same_but (ps : list loc) (w w' : world) : Prop :=
  self w' = self w /\ debug_log w' = debug_log w /\
  length (mem w') = length (mem w) /\
  forall l, l ∉ ps -> mem w' !! l = mem w !! l.

(** The store after the copies of the setter of [network_weights]. *)
Definition copy_all (pairs : list (loc * loc)) (h : heap) : heap :=
  fold_left (fun h' ps => <[fst ps := load h' (snd ps)]> h') pairs h.

(** The test rows as [predict] feeds them to the network (lines 266-269). *)
Definition test_input (t : Bohamiann) (x_test : list (list R)) : list (list R) :=
  if normalize_input t then
    match x_stats t with
    | Some stats => fst (zero_mean_unit_var_normalization x_test (Some stats))
    | None => x_test
    end
  else x_test.

(** The array [network_outputs] of lines 277-280. *)
Definition ensemble_outputs (x_test : list (list R))
  : M world (list (list (R * R))) :=
  fun w =>
    for_each (network_predict (test_input (self w) x_test))
             (sampled_weights (self w)) w.

(** The statistics a [predict] call needs are there. *)
Definition statistics_stored (t : Bohamiann) : Prop :=
  (normalize_input t = true -> is_Some (x_stats t)) /\
  (normalize_output t = true -> is_Some (y_stats t)).

(** The steps of a run of [num_steps] iterations at which line 256 holds. *)
Definition sampling_steps (num_steps : nat) (keep_every num_burn_in_steps : Z)
  : list Z :=
  filter (fun step => (step > num_burn_in_steps)%Z /\
                      ((step - num_burn_in_steps) mod keep_every = 0)%Z)
         (map Z.of_nat (seq 0 num_steps)).

(** The world after the recording of lines 257-261 at step [step]. *)
Definition recorded (m : module) (step : Z) (w : world) : world :=
  {| self := set_sampled_weights
               (sampled_weights (self w)
                ++ [seq (length (mem w)) (length (parameters m))]) (self w);
     mem := mem w ++ load_all (mem w) (parameters m);
     debug_log := debug_log w ++ [Recording_sample step] |}.

(** What [train] asks of the trainer and of its arguments before the loop
    starts: both normalizations enabled (lines 201 and 207), as many targets
    as rows, a batch size the data loader accepts, a count [islice]
    accepts. *)
Definition runnable (w : world) (x_train : list (list R)) (y_train : list R)
    (num_steps : Z) : Prop :=
  normalize_input (self w) = true /\ normalize_output (self w) = true /\
  (1 <= batch_size (self w))%Z /\
  length x_train = length y_train /\ (0 <= num_steps)%Z.

(** The normalized data set of lines 199-211. *)
Definition training_set (x_train : list (list R)) (y_train : list R)
  : list (list R * R) :=
  zip (fst (zero_mean_unit_var_normalization x_train None))
      (fst (zero_mean_unit_var_normalization_1d y_train)).

(** The model of line 216, allocated in the store of [w]. *)
Definition prepared_module (x_train : list (list R)) (w : world) : module :=
  let net := get_network (length (hd [] x_train)) in
  {| arch := fst net;
     parameters := seq (length (mem w)) (length (snd net)) |}.

(** The world in which the loop starts (line 225), when both normalizations
    are enabled: snapshots cleared, statistics stored, the parameters of a
    fresh network allocated. *)
Definition prepared (x_train : list (list R)) (y_train : list R) (w : world)
  : world :=
  let stats_x := snd (zero_mean_unit_var_normalization x_train None) in
  let stats_y := snd (zero_mean_unit_var_normalization_1d y_train) in
  {| self := set_model (Some (prepared_module x_train w))
               (set_y_stats (Some stats_y)
                  (set_x_stats (Some stats_x)
                     (set_sampled_weights [] (self w))));
     mem := mem w ++ snd (get_network (length (hd [] x_train)));
     debug_log := debug_log w |}.

(** The sampler of line 218. *)
Definition prepared_sampler (x_train : list (list R)) (y_train : list R)
    (num_burn_in_steps : Z) (lr noise mdecay : R) (w : world) : sampler_state :=
  AdaptiveSGHMC
    (load_all (mem (prepared x_train y_train w))
              (parameters (prepared_module x_train w)))
    (length x_train) num_burn_in_steps lr mdecay noise.

(** The invariant of the loop after [k] iterations from [w0]. *)
Definition loop_invariant (w0 : world) (m : module)
    (keep_every num_burn_in_steps : Z) (k : nat) (w : world) : Prop :=
  well_formed w /\
  model (self w) = Some m /\
  self w = set_sampled_weights (sampled_weights (self w)) (self w0) /\
  (debug_log w
   = debug_log w0
     ++ map Recording_sample (sampling_steps k keep_every num_burn_in_steps)) /\
  (length (sampled_weights (self w))
   = length (sampled_weights (self w0))
     + length (sampling_steps k keep_every num_burn_in_steps)) /\
  stored_values w0 `prefix_of` stored_values w.


(** A trainer that [predict] may be called on before any training has
    succeeded: not trained, no snapshot. *)
Definition untrained (t : Bohamiann) : Prop :=
  is_trained t = false /\ sampled_weights t = [].

End Notions.

(** ** A small instance, for the examples

    One parameter tensor with one entry; the network predicts that entry as
    the mean and 0 as the log-variance; the sampler adds one to the entry at
    every step; normalization is the identity with statistics (0, 1). *)
Definition toy_step (s : unit) (theta grads : list tensor) : unit * list tensor :=
  (s, map (map (Rplus 1)) theta).

Definition toy : Collaborators := {|
  network := unit;
  get_network := fun _ => (tt, [[0%R]]);
  forward := fun _ theta _ => (hd 0%R (hd [] theta), 0%R);
  sampler_state := unit;
  AdaptiveSGHMC := fun _ _ _ _ _ _ => tt;
  sampler_step := toy_step;
  backward := fun _ theta => theta;
  zero_mean_unit_var_normalization := fun X stats => (X, default ([], []) stats);
  zero_mean_unit_var_normalization_1d := fun y => (y, (0, 1)%R);
  normalization_rows := fun _ _ => eq_refl;
  normalization_1d_rows := fun _ => eq_refl
|}.

(** A trainer of the small instance as the constructor leaves it (batch
    size 20) and the world before any training; the world in which the loop
    of [train] starts on the one-row data set x = [[1]], y = [1]; and the
    world in which [train] ends there with [num_steps = 3], [keep_every = 1]
    and [num_burn_in_steps = 0]: the parameter, initially 0, is 1, 2 and 3
    after the steps 0, 1 and 2, and the steps 1 and 2 are recorded. *)
Definition toy_trainer (ni no : bool) : @Bohamiann toy :=
  {| batch_size := 20; normalize_input := ni; normalize_output := no;
     is_trained := false; sampled_weights := [];
     x_stats := None; y_stats := None; model := None |}.

Definition toy_world (ni no : bool) : @world toy :=
  {| self := toy_trainer ni no; mem := []; debug_log := [] |}.

Definition toy_module : @module toy := @Build_module toy tt [0].


Definition toy_trained : @world toy :=
  {| self := {| batch_size := 20; normalize_input := true;
                normalize_output := true; is_trained := true;
                sampled_weights := [[1]; [2]];
                x_stats := Some ([], []); y_stats := Some (0, 1)%R;
                model := Some toy_module |};
     mem := [[1 + (1 + (1 + 0))]; [1 + (1 + 0)]; [1 + (1 + (1 + 0))]]%R;
     debug_log := [Recording_sample 1; Recording_sample 2] |}.





(** ** The default network (lines 19-44)

    [nn.Sequential] of four [nn.Linear] layers with [nn.Tanh] between them
    and the local class [AppendLayer] at the end.  The network is given on
    one input row; a tensor is its buffer in row-major order, with the
    shapes the constructor fixes. *)

(** [nn.Linear(in_features, out_features)]: output j is the product of the
    input row with row j of the (out, in) weight matrix, plus entry j of the
    bias.  A row of another width is the shape error of torch. *)
Definition Linear (in_features out_features : nat) (weight bias : list R)
    (x : list R) : exn + list R :=
  if length x =? in_features then
    inr (map (fun j =>
                (Rsum (zip_with Rmult x
                         (take in_features (drop (j * in_features) weight)))
                 + nth j bias 0)%R)
             (seq 0 out_features))
  else inl RuntimeError.

(** [AppendLayer.forward] (line 29):
    [torch.cat((x, self.bias * torch.ones_like(x)), dim=1)], the bias being
    a 1 x 1 tensor. *)
Definition AppendLayer_forward (bias : list R) (x : list R) : list R :=
  x ++ map (fun _ => nth 0 bias 0 * 1)%R x.

(** The parameters in the order of [parameters()]: weight and bias of the
    layers 0, 2, 4 and 6 of the sequence, and the bias of the layer 7. *)
Record default_parameters : Type := {
  weight0 : list R; bias0 : list R;
  weight2 : list R; bias2 : list R;
  weight4 : list R; bias4 : list R;
  weight6 : list R; bias6 : list R;
  append_bias : list R
}.

Definition default_network_forward (input_dimensionality : nat)
    (p : default_parameters) (x : list R) : exn + list R :=
  match Linear input_dimensionality 50 (weight0 p) (bias0 p) x with
  | inl e => inl e
  | inr h0 =>
    match Linear 50 50 (weight2 p) (bias2 p) (map tanh h0) with
    | inl e => inl e
    | inr h2 =>
      match Linear 50 50 (weight4 p) (bias4 p) (map tanh h2) with
      | inl e => inl e
      | inr h4 =>
        match Linear 50 1 (weight6 p) (bias6 p) (map tanh h4) with
        | inl e => inl e
        | inr h6 => inr (AppendLayer_forward (append_bias p) h6)
        end
      end
    end
  end.

(** [init_weights] (lines 31-36) applied to every layer: the weights of the
    linear layers are drawn at random by [kaiming_normal_] and are arguments
    here; their biases are 0 and the bias of [AppendLayer] is
    [np.log(1e-3)]. *)
Definition init_weights (w0 w2 w4 w6 : list R) : default_parameters :=
  {| weight0 := w0; bias0 := repeat 0%R 50;
     weight2 := w2; bias2 := repeat 0%R 50;
     weight4 := w4; bias4 := repeat 0%R 50;
     weight6 := w6; bias6 := repeat 0%R 1;
     append_bias := [ln 1e-3] |}.

(** ** Instances of the default network and of a later state *)

(** A freshly initialized default network for one input feature, every
    weight drawn as 1. *)
Definition toy_initial : default_parameters :=
  init_weights (repeat 1%R 50) (repeat 1%R 2500) (repeat 1%R 2500)
               (repeat 1%R 50).

(** The trained small instance after the sampler has moved the parameter
    on to 9. *)
Definition toy_moved : @world toy :=
  with_mem (fun _ => [[9]; [1 + (1 + 0)]; [1 + (1 + (1 + 0))]]%R) toy_trained.

(** * Properties *)

(** ** The loss *)

Lemma broadcast_same (f : R -> R -> R) (a b : list R) :
  length a = length b -> broadcast f a b = Some (zip_with f a b).
Proof.
  intros H. unfold broadcast. rewrite H, Nat.eqb_refl. reflexivity.
Qed.

Lemma log_likelihood_term (mu l y : R) :
  (- (y - mu) ^ 2 * (0.5 * (1 / (exp l + 1e-16))) - 0.5 * l)%R
  = log_likelihood_spec mu l y.
Proof.
  unfold log_likelihood_spec, inverse_variance.
  generalize (1 / (exp l + 1e-16))%R. intros v. lra.
Qed.

Lemma nll_terms (input : list (R * R)) : forall target : list R,
  length target = length input ->
  zip_with Rminus
    (zip_with Rmult
       (map Ropp (map (fun d => d ^ 2)%R (zip_with Rminus target (map fst input))))
       (map (Rmult 0.5) (map (fun l => 1 / (exp l + 1e-16))%R (map snd input))))
    (map (Rmult 0.5) (map snd input))
  = zip_with (fun o y => log_likelihood_spec (fst o) (snd o) y) input target.
Proof.
  induction input as [|[mu l] input IH]; intros [|y target] H;
    simpl in H; try discriminate; [reflexivity|].
  simpl. rewrite IH by lia. f_equal. apply log_likelihood_term.
Qed.

(** For equal sizes no broadcast fails. *)
Lemma nll_defined (input : list (R * R)) (target : list R) :
  length target = length input -> is_Some (nll input target).
Proof.
  intros H. unfold nll.
  rewrite broadcast_same by (rewrite length_map; exact H).
  rewrite broadcast_same
    by (rewrite !length_map, length_zip_with, !length_map; lia).
  rewrite broadcast_same
    by (rewrite !length_zip_with, !length_map, length_zip_with, !length_map; lia).
  eexists; reflexivity.
Qed.

(** ** The ensemble moments *)

Lemma fold_left_Rplus (xs : list R) : forall a : R,
  fold_left Rplus xs a = (a + Rsum xs)%R.
Proof.
  induction xs as [|x xs IH]; intros a; simpl.
  - lra.
  - rewrite IH. lra.
Qed.

Lemma fold_left_zip_with_length (M : nat) (rs : list (list R)) : forall r,
  length r = M -> Forall (fun row => length row = M) rs ->
  length (fold_left (zip_with Rplus) rs r) = M.
Proof.
  induction rs as [|r' rs IH]; intros r Hr Hrs; simpl; [exact Hr|].
  inversion Hrs; subst. apply IH; [|assumption].
  rewrite length_zip_with. lia.
Qed.

Lemma nth_zip_with_Rplus (a b : list R) (j : nat) :
  length a = length b ->
  nth j (zip_with Rplus a b) 0%R = (nth j a 0 + nth j b 0)%R.
Proof.
  revert b j. induction a as [|x a IH]; intros [|y b] [|j] H;
    simpl in *; try discriminate; try lra; try reflexivity.
  apply IH. lia.
Qed.

Lemma nth_fold_left_zip_with (M j : nat) (rs : list (list R)) : forall r,
  length r = M -> Forall (fun row => length row = M) rs ->
  nth j (fold_left (zip_with Rplus) rs r) 0%R
  = fold_left Rplus (map (fun row => nth j row 0%R) rs) (nth j r 0%R).
Proof.
  induction rs as [|r' rs IH]; intros r Hr Hrs; simpl; [reflexivity|].
  inversion Hrs; subst.
  rewrite IH; [|rewrite length_zip_with; lia|assumption].
  rewrite nth_zip_with_Rplus by lia. reflexivity.
Qed.

(** A column of [np.mean(a, axis=0)] is the arithmetic mean of that column. *)
Lemma mean_axis0_lookup (M j : nat) (a : list (list R)) :
  a <> [] -> Forall (fun row => length row = M) a -> j < M ->
  mean_axis0 a !! j = Some (arithmetic_mean (map (fun row => nth j row 0%R) a)).
Proof.
  intros Hne Hrows Hj. destruct a as [|r rs]; [congruence|].
  inversion Hrows; subst.
  unfold mean_axis0, arithmetic_mean. rewrite list_lookup_fmap.
  assert (Hlen : length (sum_axis0 (r :: rs)) = length r)
    by (simpl; apply fold_left_zip_with_length; auto).
  destruct (lookup_lt_is_Some_2 (sum_axis0 (r :: rs)) j) as [s Hs]; [lia|].
  rewrite Hs. simpl. f_equal.
  apply (nth_lookup_Some _ _ 0%R) in Hs. simpl in Hs.
  rewrite (nth_fold_left_zip_with (length r)) in Hs by auto.
  rewrite fold_left_Rplus in Hs. rewrite length_map. simpl. rewrite <- Hs.
  reflexivity.
Qed.

Lemma map_at_test_point {A} (f : R * R -> A) (d : A) (j M : nat)
    (outs : list (list (R * R))) :
  Forall (fun out => length out = M) outs -> j < M ->
  map (fun row => nth j row d) (map (map f) outs) = map f (at_test_point j outs).
Proof.
  intros Hrows Hj. unfold at_test_point. rewrite !map_map.
  apply map_ext_in. intros out Hin.
  rewrite Forall_forall in Hrows. specialize (Hrows out).
  rewrite (nth_indep _ d (f (0, 0)%R)).
  - apply map_nth.
  - rewrite length_map, Hrows; [exact Hj|]. apply list_elem_of_In, Hin.
Qed.

Lemma mean_prediction_lookup (M j : nat) (outs : list (list (R * R))) :
  outs <> [] -> Forall (fun out => length out = M) outs -> j < M ->
  mean_prediction outs !! j = Some (ensemble_mean_spec (at_test_point j outs)).
Proof.
  intros Hne Hrows Hj. unfold mean_prediction, ensemble_mean_spec.
  rewrite (mean_axis0_lookup M).
  - rewrite (map_at_test_point fst 0%R j M) by assumption. reflexivity.
  - destruct outs; [congruence|discriminate].
  - rewrite Forall_map. eapply Forall_impl; [exact Hrows|].
    intros out Hout. simpl. rewrite length_map. exact Hout.
  - exact Hj.
Qed.

Lemma variance_prediction_lookup (M j : nat) (outs : list (list (R * R))) :
  outs <> [] -> Forall (fun out => length out = M) outs -> j < M ->
  variance_prediction outs !! j
  = Some (ensemble_variance_spec (at_test_point j outs)).
Proof.
  intros Hne Hrows Hj. unfold variance_prediction, ensemble_variance_spec.
  rewrite lookup_zip_with, list_lookup_fmap.
  rewrite (mean_prediction_lookup M) by assumption.
  rewrite (mean_axis0_lookup M).
  - simpl.
    rewrite (map_at_test_point (fun o => fst o ^ 2 + exp (snd o))%R 0%R j M)
      by assumption.
    reflexivity.
  - destruct outs; [congruence|discriminate].
  - rewrite Forall_map. eapply Forall_impl; [exact Hrows|].
    intros out Hout. simpl. rewrite length_map. exact Hout.
  - exact Hj.
Qed.

(** ** The store: writes, copies and allocations *)

Section Facts.
Context `{C : Collaborators}.

Ltac run := unfold bind, ret, get, modify, raise, hang, local; simpl.

Lemma same_but_refl ps w : same_but ps w w.
Proof. repeat split. Qed.

Lemma same_but_trans ps w1 w2 w3 :
  same_but ps w1 w2 -> same_but ps w2 w3 -> same_but ps w1 w3.
Proof.
  intros (Hs & Hd & Hl & Hm) (Hs' & Hd' & Hl' & Hm'). repeat split; try congruence.
  intros l Hl0. rewrite Hm', Hm by assumption. reflexivity.
Qed.

Lemma same_but_load_all ps w w' ls :
  same_but ps w w' -> Forall (fun l => l ∉ ps) ls ->
  load_all (mem w') ls = load_all (mem w) ls.
Proof.
  intros (_ & _ & _ & Hm) Hls. unfold load_all. apply map_ext_in.
  intros l Hin. unfold load. rewrite Hm; [reflexivity|].
  rewrite Forall_forall in Hls. apply Hls, list_elem_of_In, Hin.
Qed.

Lemma snapshot_ok_disjoint h ps snap :
  snapshot_ok h ps snap -> Forall (fun l => l ∉ ps) snap.
Proof. intros [_ H]. eapply Forall_impl; [exact H|]. intros l [_ Hl]. exact Hl. Qed.

Lemma same_but_stored_values ps w w' :
  same_but ps w w' ->
  Forall (snapshot_ok (mem w) ps) (sampled_weights (self w)) ->
  stored_values w' = stored_values w.
Proof.
  intros Hsame Hok. unfold stored_values.
  destruct Hsame as (Hs & Hd & Hl & Hm). rewrite Hs.
  apply map_ext_in. intros snap Hin.
  apply (same_but_load_all ps w w'); [repeat split; assumption|].
  rewrite Forall_forall in Hok.
  eapply snapshot_ok_disjoint, Hok, list_elem_of_In, Hin.
Qed.

Lemma same_but_well_formed m w w' :
  model (self w) = Some m -> same_but (parameters m) w w' ->
  well_formed w -> well_formed w'.
Proof.
  intros Hm (Hs & Hd & Hl & Hmem) (m' & Hm' & Hnd & Hps & Hsn).
  exists m'. rewrite Hs, Hl. repeat split; try assumption.
  eapply Forall_impl; [exact Hsn|]. intros snap [H1 H2]. split; [exact H1|].
  eapply Forall_impl; [exact H2|]. intros l [H3 H4]. split; [lia|exact H4].
Qed.

(** In-place writes, as [sampler.step()] performs them. *)
Lemma writes_length (pvs : list (loc * tensor)) : forall h : heap,
  length (fold_left (fun h' pv => <[fst pv := snd pv]> h') pvs h) = length h.
Proof.
  induction pvs as [|pv pvs IH]; intros h; simpl; [reflexivity|].
  rewrite IH. apply length_insert.
Qed.

Lemma writes_lookup_other (pvs : list (loc * tensor)) (l : loc) : forall h : heap,
  l ∉ map fst pvs ->
  fold_left (fun h' pv => <[fst pv := snd pv]> h') pvs h !! l = h !! l.
Proof.
  induction pvs as [|pv pvs IH]; intros h Hl; simpl; [reflexivity|].
  simpl in Hl. apply not_elem_of_cons in Hl as [Hne Hl].
  rewrite IH by exact Hl. apply list_lookup_insert_ne. congruence.
Qed.

Lemma zip_fst_subset {A B} (xs : list A) (ys : list B) (x : A) :
  x ∈ map fst (zip xs ys) -> x ∈ xs.
Proof.
  revert ys. induction xs as [|a xs IH]; intros [|b ys] H; simpl in H;
    try (apply elem_of_nil in H; contradiction).
  apply elem_of_cons in H as [->|H]; [left|right; eapply IH, H].
Qed.

Lemma update_parameters_same_but m values w :
  exists w', update_parameters m values w = Returns tt w' /\
             same_but (parameters m) w w'.
Proof.
  eexists. split; [reflexivity|]. repeat split; simpl.
  - apply writes_length.
  - intros l Hl. apply writes_lookup_other. intros Hin. apply Hl.
    eapply zip_fst_subset, Hin.
Qed.

(** Copies into the parameters, as the setter of [network_weights]
    performs them. *)
Lemma for_each_copy (pairs : list (loc * loc)) : forall w : world,
  exists units, for_each copy_ pairs w = Returns units (with_mem (copy_all pairs) w).
Proof.
  induction pairs as [|ps pairs IH]; intros w.
  - exists []. destruct w; reflexivity.
  - destruct (IH (with_mem (fun h => <[fst ps := load h (snd ps)]> h) w))
      as [units Hu].
    exists (tt :: units). simpl. unfold bind at 1. unfold copy_ at 1, modify.
    unfold bind at 1. rewrite Hu. reflexivity.
Qed.

Lemma copy_all_length (pairs : list (loc * loc)) : forall h : heap,
  length (copy_all pairs h) = length h.
Proof.
  induction pairs as [|ps pairs IH]; intros h; simpl; [reflexivity|].
  unfold copy_all in *. simpl. rewrite IH. apply length_insert.
Qed.

Lemma copy_all_lookup_other (pairs : list (loc * loc)) (l : loc) : forall h : heap,
  l ∉ map fst pairs -> copy_all pairs h !! l = h !! l.
Proof.
  induction pairs as [|ps pairs IH]; intros h Hl; simpl; [reflexivity|].
  simpl in Hl. apply not_elem_of_cons in Hl as [Hne Hl].
  unfold copy_all in *. simpl. rewrite IH by exact Hl.
  apply list_lookup_insert_ne. congruence.
Qed.

(** After the copies every parameter holds the value of its array, when the
    parameters are distinct and no array is a parameter's buffer. *)
Lemma copy_all_restores (ps : list loc) : forall (snap : list loc) (h : heap),
  length snap = length ps -> NoDup ps ->
  Forall (fun p => p < length h) ps ->
  Forall (fun l => l ∉ ps) snap ->
  load_all (copy_all (zip ps snap) h) ps = load_all h snap.
Proof.
  induction ps as [|p ps IH]; intros [|s snap] h Hlen Hnd Hin Hdis;
    simpl in Hlen; try discriminate; [reflexivity|].
  inversion Hnd as [|? ? Hp Hnd']; subst.
  inversion Hin as [|? ? Hp_in Hin']; subst.
  inversion Hdis as [|? ? Hs Hdis']; subst.
  unfold copy_all. simpl. fold (copy_all (zip ps snap) (<[p := load h s]> h)).
  f_equal.
  - unfold load at 1. rewrite copy_all_lookup_other.
    + rewrite list_lookup_insert_eq by exact Hp_in. reflexivity.
    + intros Hin0. apply Hp. eapply zip_fst_subset, Hin0.
  - rewrite IH.
    + unfold load_all. apply map_ext_in. intros l Hl. unfold load.
      rewrite list_lookup_insert_ne; [reflexivity|].
      intros ->. rewrite Forall_forall in Hdis'.
      apply (Hdis' l); [apply list_elem_of_In, Hl|left].
    + lia.
    + exact Hnd'.
    + rewrite length_insert. exact Hin'.
    + eapply Forall_impl; [exact Hdis'|]. intros l Hl Hl'. apply Hl. right. exact Hl'.
Qed.

(** Fresh buffers: the parameters of a new network and the arrays of a
    snapshot. *)
Lemma for_each_allocate (values : list tensor) : forall w : world,
  for_each allocate values w
  = Returns (seq (length (mem w)) (length values))
            (with_mem (fun h => h ++ values) w).
Proof.
  induction values as [|v values IH]; intros w; simpl.
  - unfold ret, with_mem. rewrite app_nil_r. destruct w; reflexivity.
  - unfold bind at 1, allocate at 1. cbv beta iota.
    unfold bind at 1. rewrite IH. run. unfold with_mem. simpl.
    rewrite length_app, Nat.add_1_r, <- app_assoc. reflexivity.
Qed.

Lemma load_app_l (h h' : heap) (l : loc) :
  l < length h -> load (h ++ h') l = load h l.
Proof. intros H. unfold load. rewrite lookup_app_l by exact H. reflexivity. Qed.

Lemma load_all_app_l (h h' : heap) (ls : list loc) :
  Forall (fun l => l < length h) ls -> load_all (h ++ h') ls = load_all h ls.
Proof.
  intros H. unfold load_all. apply map_ext_in. intros l Hl.
  apply load_app_l. rewrite Forall_forall in H. apply H, list_elem_of_In, Hl.
Qed.

Lemma for_each_clone (ps : list loc) : forall w : world,
  Forall (fun p => p < length (mem w)) ps ->
  for_each clone ps w
  = Returns (seq (length (mem w)) (length ps))
            (with_mem (fun h => h ++ load_all h ps) w).
Proof.
  induction ps as [|p ps IH]; intros w Hps; simpl.
  - unfold ret, with_mem. rewrite app_nil_r. destruct w; reflexivity.
  - inversion Hps; subst.
    unfold bind at 1, clone at 1. cbv beta iota.
    unfold bind at 1. rewrite IH.
    + run. unfold with_mem. simpl.
      rewrite length_app, Nat.add_1_r, <- app_assoc. simpl.
      rewrite load_all_app_l by assumption. reflexivity.
    + simpl. rewrite length_app. eapply Forall_impl; [eassumption|].
      simpl. intros; lia.
Qed.

(** The arrays of a new snapshot hold the values they were copied from. *)
Lemma load_all_fresh (h : heap) (values : list tensor) :
  load_all (h ++ values) (seq (length h) (length values)) = values.
Proof.
  unfold load_all. apply list_eq. intros i.
  rewrite list_lookup_fmap. destruct (values !! i) as [v|] eqn:E.
  - assert (Hi : i < length values) by (eapply lookup_lt_Some, E).
    rewrite lookup_seq_lt by exact Hi. simpl. unfold load.
    rewrite lookup_app_r by lia.
    replace (length h + i - length h) with i by lia. rewrite E. reflexivity.
  - assert (Hi : length values <= i) by (eapply lookup_ge_None, E).
    rewrite lookup_seq_ge by exact Hi. reflexivity.
Qed.

(** ** The property [network_weights] *)

Lemma the_model_returns m w :
  model (self w) = Some m -> the_model w = Returns m w.
Proof. intros H. unfold the_model. run. rewrite H. reflexivity. Qed.

Lemma network_weights_returns m w :
  model (self w) = Some m ->
  Forall (fun p => p < length (mem w)) (parameters m) ->
  network_weights w
  = Returns (seq (length (mem w)) (length (parameters m)))
            (with_mem (fun h => h ++ load_all h (parameters m)) w).
Proof.
  intros Hm Hps. unfold network_weights. unfold bind.
  rewrite (the_model_returns m) by exact Hm. apply for_each_clone, Hps.
Qed.

Lemma set_network_weights_returns m weights w :
  model (self w) = Some m ->
  set_network_weights weights w
  = Returns tt (with_mem (copy_all (zip (parameters m) weights)) w).
Proof.
  intros Hm. unfold set_network_weights. unfold bind at 1.
  rewrite (the_model_returns m) by exact Hm.
  destruct (for_each_copy (zip (parameters m) weights) w) as [units Hu].
  unfold bind. rewrite Hu. reflexivity.
Qed.

Lemma copy_all_same_but ps weights w :
  same_but ps w (with_mem (copy_all (zip ps weights)) w).
Proof.
  repeat split; simpl.
  - apply copy_all_length.
  - intros l Hl. apply copy_all_lookup_other. intros Hin. apply Hl.
    eapply zip_fst_subset, Hin.
Qed.

Lemma network_predict_returns m x weights w :
  model (self w) = Some m ->
  network_predict x weights w
  = Returns (map (forward (arch m)
                    (load_all (copy_all (zip (parameters m) weights) (mem w))
                              (parameters m))) x)
            (with_mem (copy_all (zip (parameters m) weights)) w).
Proof.
  intros Hm. unfold network_predict. unfold bind at 1.
  rewrite (set_network_weights_returns m) by exact Hm.
  unfold bind at 1. rewrite (the_model_returns m) by exact Hm.
  reflexivity.
Qed.

(** ** The replay of the snapshots in [predict] *)

Lemma for_each_network_predict_returns m x (snaps : list (list loc)) :
  forall w : world, model (self w) = Some m ->
  exists outs w',
    for_each (network_predict x) snaps w = Returns outs w' /\
    same_but (parameters m) w w' /\ length outs = length snaps.
Proof.
  induction snaps as [|snap snaps IH]; intros w Hm.
  - exists [], w. repeat split.
  - simpl. unfold bind at 1.
    rewrite (network_predict_returns m) by exact Hm.
    set (w1 := with_mem (copy_all (zip (parameters m) snap)) w).
    destruct (IH w1 Hm) as (outs & w' & Hrun & Hsame & Hlen).
    unfold bind at 1. rewrite Hrun. run.
    eexists _, w'. split; [reflexivity|]. split; [|simpl; lia].
    eapply same_but_trans; [|exact Hsame]. apply copy_all_same_but.
Qed.

Lemma snapshot_ok_length h h' ps snap :
  length h' = length h -> snapshot_ok h ps snap -> snapshot_ok h' ps snap.
Proof. intros Hl [H1 H2]. split; [exact H1|]. rewrite Hl. exact H2. Qed.

(** With snapshots that fit the parameters, each replay runs the network
    under the stored values, and the parameters end as the last snapshot. *)
Lemma for_each_network_predict m x (snaps : list (list loc)) :
  forall w : world,
  model (self w) = Some m -> NoDup (parameters m) ->
  Forall (fun p => p < length (mem w)) (parameters m) ->
  Forall (snapshot_ok (mem w) (parameters m)) snaps ->
  exists w',
    for_each (network_predict x) snaps w
    = Returns (map (fun snap =>
                 map (forward (arch m) (load_all (mem w) snap)) x) snaps) w' /\
    same_but (parameters m) w w' /\
    forall snap, last snaps = Some snap ->
      load_all (mem w') (parameters m) = load_all (mem w) snap.
Proof.
  induction snaps as [|snap snaps IH]; intros w Hm Hnd Hps Hok.
  - exists w. repeat split. intros snap H. discriminate.
  - inversion Hok as [|? ? Hsnap Hok']; subst.
    set (w1 := with_mem (copy_all (zip (parameters m) snap)) w).
    assert (Hsame1 : same_but (parameters m) w w1) by apply copy_all_same_but.
    assert (Hl1 : length (mem w1) = length (mem w)) by apply Hsame1.
    assert (Hrestored : load_all (mem w1) (parameters m) = load_all (mem w) snap).
    { destruct Hsnap as [Hlen Hall]. apply copy_all_restores; try assumption.
      eapply Forall_impl; [exact Hall|]. intros l [_ Hl]. exact Hl. }
    destruct (IH w1) as (w' & Hrun & Hsame & Hlast); try assumption.
    { rewrite Hl1. exact Hps. }
    { eapply Forall_impl; [exact Hok'|]. intros s. apply snapshot_ok_length, Hl1. }
    exists w'. split; [|split].
    + simpl. unfold bind at 1.
      rewrite (network_predict_returns m) by exact Hm. fold w1.
      unfold bind at 1. rewrite Hrun. run. f_equal. f_equal.
      * simpl in Hrestored. rewrite Hrestored. reflexivity.
      * apply map_ext_in. intros s Hs. f_equal. f_equal.
        apply (same_but_load_all (parameters m) w w1); [exact Hsame1|].
        rewrite Forall_forall in Hok'.
        eapply snapshot_ok_disjoint, Hok', list_elem_of_In, Hs.
    + eapply same_but_trans; eassumption.
    + intros s Hs. destruct snaps as [|snap' snaps].
      * simpl in Hs. injection Hs as <-.
        simpl in Hrun. unfold ret in Hrun. injection Hrun as <-.
        exact Hrestored.
      * assert (Hs' : last (snap' :: snaps) = Some s) by exact Hs.
        rewrite (Hlast s) by exact Hs'.
        apply (same_but_load_all (parameters m) w w1); [exact Hsame1|].
        rewrite Forall_forall in Hok'.
        eapply snapshot_ok_disjoint, Hok'.
        apply last_Some_elem_of in Hs'. exact Hs'.
Qed.

(** ** [predict] *)

(** The three ways in which [predict] ends once the snapshots are replayed. *)
Lemma predict_after_replay x flag w outs w' :
  (normalize_input (self w) = true -> is_Some (x_stats (self w))) ->
  ensemble_outputs x w = Returns outs w' ->
  predict x flag w =
  match outs with
  | [] => Raises IndexError w'
  | _ :: _ =>
    if normalize_output (self w) then
      match y_stats (self w) with
      | None => Raises (AttributeError "y_mean") w'
      | Some (y_mean, y_std) =>
        Returns (zero_mean_unit_var_unnormalization (mean_prediction outs) y_mean y_std,
                 map (fun v => v * y_std ^ 2)%R (variance_prediction outs),
                 if flag
                 then Some (map (map fst)
                        (map (fun out =>
                           zero_mean_unit_var_unnormalization_2d out y_mean y_std) outs))
                 else None) w'
      end
    else
      Returns (mean_prediction outs, variance_prediction outs,
               if flag then Some (map (map fst) outs) else None) w'
  end.
Proof.
  intros Hx Hrun. unfold ensemble_outputs, test_input in Hrun.
  unfold predict. run.
  destruct (normalize_input (self w)).
  - destruct (x_stats (self w)) as [stats|].
    + rewrite Hrun. destruct outs; [reflexivity|].
      destruct (normalize_output (self w)); [|reflexivity].
      destruct (y_stats (self w)) as [[ym ys]|]; reflexivity.
    + destruct Hx as [? Hx]; [reflexivity|discriminate].
  - rewrite Hrun. destruct outs; [reflexivity|].
    destruct (normalize_output (self w)); [|reflexivity].
    destruct (y_stats (self w)) as [[ym ys]|]; reflexivity.
Qed.

(** Without a snapshot [predict] raises: on the missing attribute [x_mean]
    when the inputs are to be normalized and no statistics are stored, else
    on the index into the empty array of outputs. *)
Lemma predict_without_snapshot x flag w :
  sampled_weights (self w) = [] ->
  predict x flag w =
  Raises (if normalize_input (self w)
          then match x_stats (self w) with
               | None => AttributeError "x_mean"
               | Some _ => IndexError
               end
          else IndexError) w.
Proof.
  intros Hs. unfold predict. run. rewrite Hs.
  destruct (normalize_input (self w)); [destruct (x_stats (self w))|];
    reflexivity.
Qed.

(** ** One iteration of the training loop *)

Lemma nll_on_batch (net : network) (theta : list tensor)
    (batch : list (list R * R)) :
  is_Some (nll (map (forward net theta) (map fst batch)) (map snd batch)).
Proof.
  apply nll_defined. rewrite !length_map. reflexivity.
Qed.

Ltac keep_sample_cases step B K :=
  unfold keep_sample;
  destruct (Z.gtb_spec step B) as [Hgt|Hle];
  [destruct (Z.eqb_spec K 0) as [HK|HK];
   [|destruct (Z.eqb_spec ((step - B) mod K) 0) as [Hmod|Hmod]]|].

Lemma keep_sample_true step B K :
  keep_sample step B K = inr true <->
  (step > B)%Z /\ K <> 0%Z /\ ((step - B) mod K = 0)%Z.
Proof.
  keep_sample_cases step B K;
    (split;
     [intros Heq; try discriminate Heq; repeat split; solve [assumption | lia]
     |intros (H1 & H2 & H3); try reflexivity; first [contradiction | lia]]).
Qed.

Lemma keep_sample_false step B K :
  keep_sample step B K = inr false ->
  ~ ((step > B)%Z /\ ((step - B) mod K = 0)%Z).
Proof.
  keep_sample_cases step B K; intros Heq; try discriminate Heq;
    intros [H1 H2]; first [contradiction | lia].
Qed.

Lemma keep_sample_raises step B K e :
  keep_sample step B K = inl e ->
  e = ZeroDivisionError /\ K = 0%Z /\ (step > B)%Z.
Proof.
  keep_sample_cases step B K; intros Heq; try discriminate Heq.
  injection Heq as <-. repeat split; [assumption | lia].
Qed.

(** An iteration first lets the sampler rewrite the parameters, giving a
    world [w1]; it then raises, goes on, or records a snapshot of [w1]. *)
Lemma train_step_outcome m dataset b K B step sampler batch w :
  model (self w) = Some m ->
  Forall (fun p => p < length (mem w)) (parameters m) ->
  infinite_dataloader dataset b step = Some batch ->
  exists sampler' w1,
    same_but (parameters m) w w1 /\
    train_step m dataset b K B step sampler w =
    match keep_sample (Z.of_nat step) B K with
    | inl e => Raises e w1
    | inr false => Returns sampler' w1
    | inr true => Returns sampler' (recorded m (Z.of_nat step) w1)
    end.
Proof.
  intros Hm Hps Hbatch. unfold train_step. rewrite Hbatch.
  unfold bind at 1. unfold parameter_values at 1. run.
  destruct (nll_on_batch (arch m) (load_all (mem w) (parameters m)) batch)
    as [loss Hloss].
  rewrite Hloss.
  destruct (sampler_step sampler (load_all (mem w) (parameters m)) _)
    as [sampler' theta'] eqn:Hstep.
  destruct (update_parameters_same_but m theta' w) as (w1 & Hw1 & Hsame).
  exists sampler', w1. split; [exact Hsame|].
  unfold update_parameters, modify in Hw1. injection Hw1 as Hw1. rewrite Hw1.
  destruct (keep_sample (Z.of_nat step) B K) as [e|[|]]; try reflexivity.
  assert (Hm1 : model (self w1) = Some m).
  { destruct Hsame as (Hs & _). rewrite Hs. exact Hm. }
  assert (Hps1 : Forall (fun p => p < length (mem w1)) (parameters m)).
  { destruct Hsame as (_ & _ & Hl & _). rewrite Hl. exact Hps. }
  pose proof (network_weights_returns m
                (logging_debug (Recording_sample (Z.of_nat step)) w1) Hm1 Hps1)
    as Hnw.
  simpl in Hnw. rewrite Hnw. reflexivity.
Qed.

(** ** Recording a snapshot *)

Lemma recorded_well_formed m step w :
  model (self w) = Some m -> well_formed w -> well_formed (recorded m step w).
Proof.
  intros Hm (m' & Hm' & Hnd & Hps & Hsn).
  rewrite Hm in Hm'. injection Hm' as <-.
  exists m. simpl. rewrite Hm. split; [reflexivity|]. split; [exact Hnd|].
  split.
  - eapply Forall_impl; [exact Hps|]. simpl. intros. rewrite length_app. lia.
  - apply Forall_app. split.
    + eapply Forall_impl; [exact Hsn|]. intros snap [H1 H2]. split; [exact H1|].
      eapply Forall_impl; [exact H2|]. simpl. intros l [H3 H4].
      split; [rewrite length_app; lia|exact H4].
    + apply Forall_singleton. split; [apply length_seq|].
      apply Forall_forall. intros l Hl. apply elem_of_seq in Hl.
      unfold load_all. rewrite length_app, length_map. split; [lia|].
      intros Hin. rewrite Forall_forall in Hps. specialize (Hps l Hin). lia.
Qed.

Lemma recorded_stored_values m step w :
  model (self w) = Some m -> well_formed w ->
  stored_values (recorded m step w)
  = stored_values w ++ [load_all (mem w) (parameters m)].
Proof.
  intros Hm (m' & Hm' & Hnd & Hps & Hsn).
  rewrite Hm in Hm'. injection Hm' as <-.
  unfold stored_values. simpl. rewrite map_app. f_equal.
  - apply map_ext_in. intros snap Hin. apply load_all_app_l.
    rewrite Forall_forall in Hsn.
    destruct (Hsn snap) as [_ H]; [apply list_elem_of_In, Hin|].
    eapply Forall_impl; [exact H|]. simpl. intros l [Hl _]. exact Hl.
  - simpl. f_equal.
    rewrite <- (length_map (load (mem w)) (parameters m)) at 1.
    apply load_all_fresh.
Qed.

(** ** The steps at which a snapshot is taken *)

Lemma sampling_steps_S (n : nat) (K B : Z) :
  sampling_steps (S n) K B
  = sampling_steps n K B
    ++ filter (fun step => (step > B)%Z /\ ((step - B) mod K = 0)%Z)
              [Z.of_nat n].
Proof.
  unfold sampling_steps. rewrite seq_S, map_app, filter_app. reflexivity.
Qed.

Lemma sampling_steps_keep (n : nat) (K B : Z) :
  (Z.of_nat n > B)%Z /\ ((Z.of_nat n - B) mod K = 0)%Z ->
  sampling_steps (S n) K B = sampling_steps n K B ++ [Z.of_nat n].
Proof.
  intros H. rewrite sampling_steps_S. f_equal.
  rewrite filter_cons_True by exact H. reflexivity.
Qed.

Lemma sampling_steps_skip (n : nat) (K B : Z) :
  ~ ((Z.of_nat n > B)%Z /\ ((Z.of_nat n - B) mod K = 0)%Z) ->
  sampling_steps (S n) K B = sampling_steps n K B.
Proof.
  intros H. rewrite sampling_steps_S.
  rewrite filter_cons_False by exact H. apply app_nil_r.
Qed.

Lemma elem_of_sampling_steps (n : nat) (K B step : Z) :
  step ∈ sampling_steps n K B <->
  (0 <= step < Z.of_nat n)%Z /\ (step > B)%Z /\ ((step - B) mod K = 0)%Z.
Proof.
  unfold sampling_steps. rewrite list_elem_of_filter, list_elem_of_fmap.
  split.
  - intros [Hc (k & -> & Hk)]. apply elem_of_seq in Hk. split; [lia|exact Hc].
  - intros [Hr Hc]. split; [exact Hc|]. exists (Z.to_nat step).
    split; [lia|]. apply elem_of_seq. lia.
Qed.


(** ** The training loop *)

Lemma well_formed_parameters m w :
  well_formed w -> model (self w) = Some m ->
  NoDup (parameters m) /\
  Forall (fun p => p < length (mem w)) (parameters m) /\
  Forall (snapshot_ok (mem w) (parameters m)) (sampled_weights (self w)).
Proof.
  intros (m' & Hm' & H) Hm. rewrite Hm in Hm'. injection Hm' as <-. exact H.
Qed.

Lemma loop_invariant_start w0 m K B :
  well_formed w0 -> model (self w0) = Some m -> loop_invariant w0 m K B 0 w0.
Proof.
  intros Hwf Hm. repeat split; try assumption.
  - destruct (self w0); reflexivity.
  - simpl. rewrite app_nil_r. reflexivity.
  - simpl. lia.
  - reflexivity.
Qed.

Lemma loop_invariant_same_but w0 m K B k w w1 :
  loop_invariant w0 m K B k w -> same_but (parameters m) w w1 ->
  loop_invariant w0 m K B k w1.
Proof.
  intros (Hwf & Hm & Hself & Hlog & Hlen & Hpre) Hsame.
  pose proof Hsame as (Hs & Hd & Hl & Hmem).
  destruct (well_formed_parameters m w Hwf Hm) as (_ & _ & Hsn).
  repeat split.
  - eapply same_but_well_formed; eassumption.
  - rewrite Hs. exact Hm.
  - rewrite Hs. exact Hself.
  - rewrite Hd. exact Hlog.
  - rewrite Hs. exact Hlen.
  - rewrite (same_but_stored_values (parameters m) w w1) by assumption.
    exact Hpre.
Qed.

Lemma loop_invariant_skip w0 m K B k w :
  ~ ((Z.of_nat k > B)%Z /\ ((Z.of_nat k - B) mod K = 0)%Z) ->
  loop_invariant w0 m K B k w -> loop_invariant w0 m K B (S k) w.
Proof.
  intros Hskip H. unfold loop_invariant.
  rewrite sampling_steps_skip by exact Hskip. exact H.
Qed.

Lemma loop_invariant_recorded w0 m K B k w :
  (Z.of_nat k > B)%Z /\ ((Z.of_nat k - B) mod K = 0)%Z ->
  loop_invariant w0 m K B k w ->
  loop_invariant w0 m K B (S k) (recorded m (Z.of_nat k) w).
Proof.
  intros Hkeep (Hwf & Hm & Hself & Hlog & Hlen & Hpre).
  unfold loop_invariant. rewrite sampling_steps_keep by exact Hkeep.
  repeat split.
  - apply recorded_well_formed; assumption.
  - simpl. exact Hm.
  - simpl. rewrite Hself at 2. reflexivity.
  - simpl. rewrite Hlog, map_app, <- app_assoc. reflexivity.
  - simpl. rewrite !length_app, Hlen. simpl. lia.
  - rewrite recorded_stored_values by assumption.
    etransitivity; [exact Hpre|]. apply prefix_app_r. reflexivity.
Qed.

(** The loop either completes its [n] iterations, or stops at the first
    step past the burn-in with [ZeroDivisionError] when [keep_every] is 0. *)
Lemma train_loop m dataset b K B sampler w0 (n : nat) :
  well_formed w0 -> model (self w0) = Some m ->
  (forall step, step < n -> is_Some (infinite_dataloader dataset b step)) ->
  exists k w,
    k <= n /\ loop_invariant w0 m K B k w /\
    ((k = n /\ exists sampler',
        for_range n (train_step m dataset b K B) sampler w0
        = Returns sampler' w) \/
     (K = 0%Z /\ (Z.of_nat k > B)%Z /\
      for_range n (train_step m dataset b K B) sampler w0
      = Raises ZeroDivisionError w)).
Proof.
  intros Hwf Hm Hdata. induction n as [|n IH].
  - exists 0, w0. split; [lia|]. split; [apply loop_invariant_start; assumption|].
    left. split; [reflexivity|]. exists sampler. reflexivity.
  - destruct IH as (k & w & Hk & Hinv & [[-> [sampler' Hrun]]|(HK & HB & Hrun)]).
    { intros step Hstep. apply Hdata. lia. }
    + pose proof Hinv as (Hwf' & Hm' & _).
      destruct (well_formed_parameters m w Hwf' Hm') as (_ & Hps & _).
      destruct (Hdata n) as [batch Hbatch]; [lia|].
      destruct (train_step_outcome m dataset b K B n sampler' batch w
                  Hm' Hps Hbatch) as (sampler'' & w1 & Hsame & Hstep).
      pose proof (loop_invariant_same_but _ _ _ _ _ _ _ Hinv Hsame) as Hinv1.
      simpl. unfold bind. rewrite Hrun, Hstep.
      destruct (keep_sample (Z.of_nat n) B K) as [e|[|]] eqn:Hkeep.
      * apply keep_sample_raises in Hkeep as (-> & HK & HB).
        exists n, w1. split; [lia|]. split; [exact Hinv1|].
        right. repeat split; assumption.
      * apply keep_sample_true in Hkeep as (H1 & _ & H2).
        exists (S n), (recorded m (Z.of_nat n) w1). split; [lia|].
        split; [apply loop_invariant_recorded; [split|]; assumption|].
        left. split; [reflexivity|]. exists sampler''. reflexivity.
      * apply keep_sample_false in Hkeep.
        exists (S n), w1. split; [lia|].
        split; [apply loop_invariant_skip; assumption|].
        left. split; [reflexivity|]. exists sampler''. reflexivity.
    + exists k, w. split; [lia|]. split; [exact Hinv|].
      right. repeat split; try assumption.
      simpl. unfold bind. rewrite Hrun. reflexivity.
Qed.

(** With no batch to draw, the loop never gets past its first iteration. *)
Lemma for_range_hangs m dataset b K B sampler w (n : nat) :
  (forall step, infinite_dataloader dataset b step = None) -> 0 < n ->
  for_range n (train_step m dataset b K B) sampler w = Hangs.
Proof.
  intros Hnone Hn. induction n as [|n IH]; [lia|].
  simpl. unfold bind. destruct n as [|n].
  - simpl. unfold ret, train_step. rewrite Hnone. reflexivity.
  - rewrite IH by lia. reflexivity.
Qed.

(** ** [train] as a whole *)

Lemma dataloader_yields {A} (dataset : list A) (b step : nat) :
  0 < length dataset -> 0 < b ->
  is_Some (infinite_dataloader dataset b step).
Proof.
  intros Hn Hb. unfold infinite_dataloader, num_batches.
  assert (H : 0 < (length dataset + b - 1) / b)
    by (apply Nat.div_str_pos; lia).
  destruct (Nat.eqb_spec ((length dataset + b - 1) / b) 0); [lia|].
  eexists; reflexivity.
Qed.

Lemma dataloader_empty {A} (dataset : list A) (b step : nat) :
  length dataset = 0 -> 0 < b -> infinite_dataloader dataset b step = None.
Proof.
  intros Hn Hb. unfold infinite_dataloader, num_batches.
  rewrite Hn. simpl. rewrite Nat.div_small by lia. reflexivity.
Qed.

Lemma training_set_length x y :
  length x = length y -> length (training_set x y) = length x.
Proof.
  intros H. unfold training_set.
  rewrite length_zip, normalization_rows, normalization_1d_rows. lia.
Qed.

Lemma prepared_well_formed x y w :
  model (self (prepared x y w)) = Some (prepared_module x w) /\
  well_formed (prepared x y w).
Proof.
  split; [reflexivity|].
  exists (prepared_module x w). split; [reflexivity|]. simpl.
  split; [apply NoDup_seq|]. split; [|constructor].
  apply Forall_forall. intros l Hl. apply elem_of_seq in Hl.
  rewrite length_app. lia.
Qed.

(** A runnable call reaches the loop, in the prepared world. *)
Lemma train_enters_loop x y S K B lr noise mdecay w :
  runnable w x y S ->
  train x y S K B lr noise mdecay w
  = (_ <- for_range (Z.to_nat S)
            (train_step (prepared_module x w) (training_set x y)
                        (Z.to_nat (batch_size (self w))) K B)
            (prepared_sampler x y B lr noise mdecay w) ;;
     modify (with_self (set_is_trained true))) (prepared x y w).
Proof.
  intros (Hni & Hno & Hb & Hxy & HS).
  pose proof (normalization_rows x None) as Hrx.
  pose proof (normalization_1d_rows y) as Hry.
  unfold train. run. rewrite Hni, Hno.
  unfold prepared_sampler, training_set, prepared, prepared_module.
  destruct (zero_mean_unit_var_normalization x None) as [x_ sx].
  destruct (zero_mean_unit_var_normalization_1d y) as [y_ sy].
  simpl in Hrx, Hry. run.
  replace (length x_ =? length y_) with true
    by (symmetry; apply Nat.eqb_eq; lia).
  simpl.
  replace (batch_size (self w) <? 1)%Z with false
    by (symmetry; apply Z.ltb_ge; lia).
  destruct (get_network (length (hd [] x))) as [net initial].
  rewrite for_each_allocate. simpl.
  replace (S <? 0)%Z with false by (symmetry; apply Z.ltb_ge; lia).
  reflexivity.
Qed.

(** A call that is not runnable raises before the loop, with the store of
    snapshots cleared and nothing logged. *)
Lemma train_not_runnable x y S K B lr noise mdecay w :
  runnable w x y S \/
  exists e w',
    train x y S K B lr noise mdecay w = Raises e w' /\
    debug_log w' = debug_log w /\ sampled_weights (self w') = [].
Proof.
  pose proof (normalization_rows x None) as Hrx.
  pose proof (normalization_1d_rows y) as Hry.
  destruct (normalize_input (self w)) eqn:Hni.
  2:{ right. unfold train. run. rewrite Hni. run.
      eexists _, _. repeat split. }
  destruct (normalize_output (self w)) eqn:Hno.
  2:{ right. unfold train. run. rewrite Hni, Hno.
      destruct (zero_mean_unit_var_normalization x None) as [x_ sx]. run.
      eexists _, _. repeat split. }
  destruct (Nat.eqb_spec (length x) (length y)) as [Hxy|Hxy].
  2:{ right. unfold train. run. rewrite Hni, Hno.
      destruct (zero_mean_unit_var_normalization x None) as [x_ sx].
      destruct (zero_mean_unit_var_normalization_1d y) as [y_ sy].
      simpl in Hrx, Hry. run.
      replace (length x_ =? length y_) with false
        by (symmetry; apply Nat.eqb_neq; lia).
      simpl. eexists _, _. repeat split. }
  destruct (Z.ltb_spec (batch_size (self w)) 1) as [Hb|Hb].
  { right. unfold train. run. rewrite Hni, Hno.
    destruct (zero_mean_unit_var_normalization x None) as [x_ sx].
    destruct (zero_mean_unit_var_normalization_1d y) as [y_ sy].
    simpl in Hrx, Hry. run.
    replace (length x_ =? length y_) with true
      by (symmetry; apply Nat.eqb_eq; lia).
    simpl.
    replace (batch_size (self w) <? 1)%Z with true
      by (symmetry; apply Z.ltb_lt; lia).
    eexists _, _. repeat split. }
  destruct (Z.ltb_spec S 0) as [HS|HS].
  { right. unfold train. run. rewrite Hni, Hno.
    destruct (zero_mean_unit_var_normalization x None) as [x_ sx].
    destruct (zero_mean_unit_var_normalization_1d y) as [y_ sy].
    simpl in Hrx, Hry. run.
    replace (length x_ =? length y_) with true
      by (symmetry; apply Nat.eqb_eq; lia).
    simpl.
    replace (batch_size (self w) <? 1)%Z with false
      by (symmetry; apply Z.ltb_ge; lia).
    destruct (get_network (length (hd [] x))) as [net initial].
    rewrite for_each_allocate. simpl.
    replace (S <? 0)%Z with true by (symmetry; apply Z.ltb_lt; lia).
    eexists _, _. repeat split. }
  left. repeat split; assumption.
Qed.

(** A runnable call on an empty data set never returns, unless no step is
    asked for. *)
Lemma train_hangs x y S K B lr noise mdecay w :
  runnable w x y S -> length x = 0 -> (0 < S)%Z ->
  train x y S K B lr noise mdecay w = Hangs.
Proof.
  intros Hrun Hx HS. rewrite train_enters_loop by exact Hrun.
  destruct Hrun as (_ & _ & Hb & Hxy & _).
  unfold bind. rewrite for_range_hangs; [reflexivity| |lia].
  intros step. apply dataloader_empty; [|lia].
  rewrite training_set_length by exact Hxy. exact Hx.
Qed.

(** A runnable call on a non-empty data set runs the loop: it returns after
    [num_steps] iterations, or raises at the first step past the burn-in
    when [keep_every] is 0. *)
Lemma train_outcome x y S K B lr noise mdecay w :
  runnable w x y S -> 0 < length x \/ S = 0%Z ->
  exists k w',
    k <= Z.to_nat S /\
    loop_invariant (prepared x y w) (prepared_module x w) K B k w' /\
    ((k = Z.to_nat S /\
      train x y S K B lr noise mdecay w
      = Returns tt (with_self (set_is_trained true) w')) \/
     (K = 0%Z /\ (Z.of_nat k > B)%Z /\
      train x y S K B lr noise mdecay w = Raises ZeroDivisionError w')).
Proof.
  intros Hrunnable Hx.
  destruct (prepared_well_formed x y w) as (Hm & Hwf).
  assert (Hdata : forall step, step < Z.to_nat S ->
            is_Some (infinite_dataloader (training_set x y)
                       (Z.to_nat (batch_size (self w))) step)).
  { destruct Hrunnable as (_ & _ & Hb & Hxy & _). intros step Hstep.
    apply dataloader_yields; [|lia].
    rewrite training_set_length by exact Hxy. lia. }
  destruct (train_loop (prepared_module x w) (training_set x y)
              (Z.to_nat (batch_size (self w))) K B
              (prepared_sampler x y B lr noise mdecay w)
              (prepared x y w) (Z.to_nat S) Hwf Hm Hdata)
    as (k & w' & Hk & Hinv & Hrun).
  exists k, w'. split; [exact Hk|]. split; [exact Hinv|].
  rewrite train_enters_loop by exact Hrunnable.
  destruct Hrun as [[-> [sampler' Hrun]]|(HK & HB & Hrun)].
  - left. split; [reflexivity|]. unfold bind. rewrite Hrun. reflexivity.
  - right. repeat split; try assumption. unfold bind. rewrite Hrun. reflexivity.
Qed.

(** Every way in which a [train] call ends. *)
Lemma train_ends x y S K B lr noise mdecay w w' :
  final_world (train x y S K B lr noise mdecay w) = Some w' ->
  (exists e, train x y S K B lr noise mdecay w = Raises e w' /\
             debug_log w' = debug_log w /\ sampled_weights (self w') = []) \/
  (runnable w x y S /\ exists k w1,
     k <= Z.to_nat S /\
     loop_invariant (prepared x y w) (prepared_module x w) K B k w1 /\
     ((k = Z.to_nat S /\ w' = with_self (set_is_trained true) w1 /\
       train x y S K B lr noise mdecay w = Returns tt w') \/
      (K = 0%Z /\ (Z.of_nat k > B)%Z /\ w' = w1 /\
       train x y S K B lr noise mdecay w = Raises ZeroDivisionError w'))).
Proof.
  intros Hfin.
  destruct (train_not_runnable x y S K B lr noise mdecay w)
    as [Hrunnable|(e & w0 & Hrun & Hlog & Hstore)].
  2:{ left. rewrite Hrun in Hfin. injection Hfin as <-. exists e. auto. }
  right. split; [exact Hrunnable|].
  assert (Hx : 0 < length x \/ S = 0%Z).
  { destruct (length x) eqn:Hlen; [|left; lia].
    destruct (Z.eq_dec S 0%Z) as [HS|HS]; [right; exact HS|].
    rewrite train_hangs in Hfin; [discriminate|exact Hrunnable|exact Hlen|].
    destruct Hrunnable as (_ & _ & _ & _ & H0). lia. }
  destruct (train_outcome x y S K B lr noise mdecay w Hrunnable Hx)
    as (k & w1 & Hk & Hinv & [[Hkeq Hrun]|(HK & HB & Hrun)]);
    rewrite Hrun in Hfin; injection Hfin as <-;
    exists k, w1; (split; [exact Hk|]); (split; [exact Hinv|]).
  - left. auto.
  - right. auto.
Qed.


(** ** Later mutations leave the stored snapshots alone *)

Lemma predict_same_but m x flag w w' :
  model (self w) = Some m ->
  final_world (predict x flag w) = Some w' -> same_but (parameters m) w w'.
Proof.
  intros Hm Hfin.
  destruct (normalize_input (self w)) eqn:Hni;
    [destruct (x_stats (self w)) as [stats|] eqn:Hxs|].
  2:{ unfold predict in Hfin. revert Hfin. run. rewrite Hni, Hxs. simpl.
      intros [= <-]. apply same_but_refl. }
  all: destruct (for_each_network_predict_returns m (test_input (self w) x)
                   (sampled_weights (self w)) w Hm)
         as (outs & w1 & Hrun & Hsame & _);
    rewrite (predict_after_replay x flag w outs w1) in Hfin;
    [|rewrite Hni; first [intros _; rewrite Hxs; eexists; reflexivity
                         |discriminate]
     |exact Hrun];
    destruct outs; [|destruct (normalize_output (self w));
                      [destruct (y_stats (self w)) as [[ym ys]|]|]];
    simpl in Hfin; injection Hfin as <-; exact Hsame.
Qed.



(** * The claims *)


(** C2.  In every [train] call a snapshot is recorded at loop index [step]
    exactly when [step > num_burn_in_steps] and
    [(step - num_burn_in_steps) mod keep_every = 0].  [records] are the steps
    logged by "Recording sample", one per stored snapshot.  However the call
    ends and whatever [keep_every] is, every recorded step is past the
    burn-in and satisfies the test; when the call returns, every step of
    the run that satisfies the test is recorded. *)
Theorem snapshot_recorded_iff x y S K B lr noise mdecay w w' :
  final_world (train x y S K B lr noise mdecay w) = Some w' ->
  exists records,
    debug_log w' = debug_log w ++ map Recording_sample records /\
    length (sampled_weights (self w')) = length records /\
    (forall step, step ∈ records ->
       (0 <= step < S)%Z /\ (step > B)%Z /\
       ((step - B) mod K = 0)%Z) /\
    (train x y S K B lr noise mdecay w = Returns tt w' ->
     forall step,
       (0 <= step < S)%Z -> (step > B)%Z -> K <> 0%Z ->
       ((step - B) mod K = 0)%Z -> step ∈ records).
Proof.
  intros Hfin.
  destruct (train_ends x y S K B lr noise mdecay w w' Hfin)
    as [(e & Hraise & Hlog & Hstore)
       |(Hrunnable & k & w1 & Hk & Hinv & Hend)].
  - exists []. rewrite Hlog, Hstore, app_nil_r.
    split; [reflexivity|]. split; [reflexivity|]. split.
    + intros step Hin. apply elem_of_nil in Hin. contradiction.
    + intros Hrun. congruence.
  - destruct Hrunnable as (_ & _ & _ & _ & HS).
    destruct Hinv as (_ & _ & _ & Hlog & Hlen & _).
    exists (sampling_steps k K B).
    assert (Hin : forall step, step ∈ sampling_steps k K B ->
              (0 <= step < S)%Z /\ (step > B)%Z /\ ((step - B) mod K = 0)%Z).
    { intros step Hstep. apply elem_of_sampling_steps in Hstep.
      split; [lia|tauto]. }
    destruct Hend as [(-> & -> & Hrun)|(HK & HkB & -> & Hraise)].
    + split; [exact Hlog|]. split; [simpl; rewrite Hlen; reflexivity|].
      split; [exact Hin|]. intros _ step Hr Hgt _ Hmod.
      apply elem_of_sampling_steps. split; [lia|]. split; assumption.
    + split; [exact Hlog|]. split; [rewrite Hlen; reflexivity|].
      split; [exact Hin|]. intros Hrun. congruence.
Qed.

(** C3 (the code fails here).  With input normalization disabled, or with
    output normalization disabled, [train] raises [UnboundLocalError] on the
    local variable that only the enabled branch assigns ([x_train_], line
    201; [y_train_], line 207): no network is built and no step is run. *)
Theorem train_without_normalization_raises x y S K B lr noise mdecay w :
  normalize_input (self w) && normalize_output (self w) = false ->
  exists w',
    train x y S K B lr noise mdecay w
    = Raises (UnboundLocalError (if normalize_input (self w)
                                 then "y_train_" else "x_train_")) w' /\
    model (self w') = model (self w) /\
    mem w' = mem w /\
    sampled_weights (self w') = [] /\
    is_trained (self w') = is_trained (self w).
Proof.
  intros Hflags. unfold train. run.
  destruct (normalize_input (self w)); simpl in Hflags.
  - rewrite Hflags.
    destruct (zero_mean_unit_var_normalization x None) as [x_ sx]. run.
    eexists. split; [reflexivity|]. repeat split.
  - eexists. split; [reflexivity|]. repeat split.
Qed.


(** C5.  For a batch of network outputs and a target vector of the same
    size n, the loss is -(1/n) times the sum over the batch of
    -0.5 (y - mu)^2 / (exp(l) + 1e-16) - 0.5 l. *)
Theorem nll_is_negative_mean_log_likelihood
    (input : list (R * R)) (target : list R) :
  length target = length input ->
  nll input target
  = Some (- (1 / INR (length input)) *
          Rsum (zip_with
                  (fun o y => - 0.5 * (y - fst o) ^ 2
                                * (1 / (exp (snd o) + 1e-16))
                              - 0.5 * snd o)
                  input target))%R.
Proof.
  intros H. unfold nll.
  rewrite broadcast_same by (rewrite length_map; exact H).
  rewrite broadcast_same
    by (rewrite !length_map, length_zip_with, !length_map; lia).
  rewrite broadcast_same
    by (rewrite !length_zip_with, !length_map, length_zip_with, !length_map; lia).
  rewrite nll_terms by exact H.
  unfold log_likelihood_spec, inverse_variance, Rdiv. f_equal. ring.
Qed.

(** C6.  For a non-empty set of snapshot outputs over M test points, the
    ensemble mean at test point j is the arithmetic mean over the snapshots
    of the predicted means, and the ensemble variance is the mean over the
    snapshots of (predicted mean squared + exp of the predicted
    log-variance) minus the square of the ensemble mean; two snapshots with
    means 1 and 3 and log-variances 0 and 0 give mean 2 and variance 2. *)
Theorem ensemble_moments (network_outputs : list (list (R * R))) (M j : nat) :
  network_outputs <> [] ->
  Forall (fun out => length out = M) network_outputs -> j < M ->
  (mean_prediction network_outputs !! j
   = Some (arithmetic_mean (map fst (at_test_point j network_outputs))) /\
   variance_prediction network_outputs !! j
   = Some (arithmetic_mean
             (map (fun o => fst o ^ 2 + exp (snd o))
                  (at_test_point j network_outputs))
           - arithmetic_mean (map fst (at_test_point j network_outputs)) ^ 2))%R
  /\
  (mean_prediction [[(1, 0)]; [(3, 0)]] = [2] /\
   variance_prediction [[(1, 0)]; [(3, 0)]] = [2])%R.
Proof.
  intros Hne Hrows Hj. split.
  - split.
    + apply (mean_prediction_lookup M); assumption.
    + apply (variance_prediction_lookup M); assumption.
  - unfold variance_prediction, mean_prediction, mean_axis0. simpl.
    rewrite exp_0. split; f_equal; lra.
Qed.

(** C7.  When output normalization is enabled, the mean that [predict]
    returns is the raw ensemble mean times [y_std] plus [y_mean], and the
    variance it returns is the raw ensemble variance times [y_std] squared,
    the raw moments being those of the array of network outputs. *)
Theorem predict_unnormalizes_output x flag w m y_mean y_std :
  normalize_output (self w) = true ->
  y_stats (self w) = Some (y_mean, y_std) ->
  model (self w) = Some m -> sampled_weights (self w) <> [] ->
  (normalize_input (self w) = true -> is_Some (x_stats (self w))) ->
  exists outs w' individual,
    ensemble_outputs x w = Returns outs w' /\
    predict x flag w
    = Returns (map (fun v => v * y_std + y_mean)%R (mean_prediction outs),
               map (fun v => v * y_std ^ 2)%R (variance_prediction outs),
               individual) w'.
Proof.
  intros Hno Hys Hm Hne Hx.
  destruct (for_each_network_predict_returns m (test_input (self w) x)
              (sampled_weights (self w)) w Hm)
    as (outs & w' & Hrun & _ & Hlen).
  exists outs, w'. eexists. split; [exact Hrun|].
  rewrite (predict_after_replay x flag w outs w' Hx Hrun).
  destruct outs as [|out outs].
  - destruct (sampled_weights (self w)); [congruence|discriminate].
  - rewrite Hno, Hys. reflexivity.
Qed.

(** C8.  Constructing a trainer with [batch_size < 1] fails at once with
    the [AssertionError] of line 95, so that no [train] call on it takes
    place; with [batch_size >= 1] the construction succeeds and gives an
    untrained trainer with the given configuration. *)
Theorem init_checks_batch_size (bs : Z) (ni no : bool) :
  ((bs < 1)%Z ->
   __init__ bs ni no = inl (AssertionError invalid_batch_size) /\
   forall h x y S K B lr noise mdecay,
     construct_and_train bs ni no h x y S K B lr noise mdecay
     = inl (AssertionError invalid_batch_size)) /\
  ((1 <= bs)%Z ->
   exists t, __init__ bs ni no = inr t /\
     batch_size t = bs /\ normalize_input t = ni /\ normalize_output t = no /\
     untrained t).
Proof.
  unfold construct_and_train, __init__. split; intros H.
  - destruct (Z.geb_spec bs 1); [lia|]. split; reflexivity.
  - destruct (Z.geb_spec bs 1); [|lia]. eexists. repeat split.
Qed.


(** C10.  A [predict] call on a trainer with a model, statistics and a
    non-empty store of fitting snapshots returns; afterwards the live
    parameters hold the values of the last snapshot of the store, and the
    trainer object (store, statistics, [is_trained]) and the values of the
    stored snapshots are as before. *)
Theorem predict_leaves_last_snapshot x flag w m snap :
  well_formed w -> model (self w) = Some m ->
  statistics_stored (self w) ->
  last (sampled_weights (self w)) = Some snap ->
  exists result w',
    predict x flag w = Returns result w' /\
    load_all (mem w') (parameters m) = load_all (mem w') snap /\
    load_all (mem w') snap = load_all (mem w) snap /\
    self w' = self w /\
    stored_values w' = stored_values w.
Proof.
  intros Hwf Hm [Hx Hy] Hlast.
  destruct (well_formed_parameters m w Hwf Hm) as (Hnd & Hps & Hsn).
  destruct (for_each_network_predict m (test_input (self w) x)
              (sampled_weights (self w)) w Hm Hnd Hps Hsn)
    as (w' & Hrun & Hsame & Hrestored).
  assert (Hsnap : load_all (mem w') snap = load_all (mem w) snap).
  { apply (same_but_load_all (parameters m)); [exact Hsame|].
    rewrite Forall_forall in Hsn.
    eapply snapshot_ok_disjoint, Hsn, last_Some_elem_of, Hlast. }
  pose proof (predict_after_replay x flag w _ w' Hx Hrun) as Hp.
  destruct (sampled_weights (self w)) as [|s0 store] eqn:Hstore;
    [discriminate|].
  simpl in Hp.
  assert (Hend : exists result, predict x flag w = Returns result w').
  { rewrite Hp. destruct (normalize_output (self w)); [|eexists; reflexivity].
    destruct Hy as [[ym ys] Hys]; [reflexivity|]. rewrite Hys.
    eexists; reflexivity. }
  destruct Hend as [result Hend]. exists result, w'.
  split; [exact Hend|]. split; [rewrite Hsnap; apply Hrestored, Hlast|].
  split; [exact Hsnap|]. split; [apply Hsame|].
  apply (same_but_stored_values (parameters m)); [exact Hsame|].
  rewrite Hstore. exact Hsn.
Qed.

End Facts.

(** * The claims at concrete inputs *)

Lemma toy_trained_well_formed : well_formed toy_trained.
Proof.
  exists toy_module. split; [reflexivity|]. split; [apply NoDup_singleton|].
  split; [repeat constructor|].
  repeat constructor; simpl; try lia; rewrite list_elem_of_singleton; lia.
Qed.


(** The definitions on small inputs. *)
Example sampling_steps_spec_example :
  sampling_steps 150 10 100 = [110; 120; 130; 140]%Z.
Proof. reflexivity. Qed.

Example keep_sample_at_burn_in : keep_sample 100 100 10 = inr false.
Proof. reflexivity. Qed.

Example keep_sample_first : keep_sample 110 100 10 = inr true.
Proof. reflexivity. Qed.

Example keep_sample_zero : keep_sample 101 100 0 = inl ZeroDivisionError.
Proof. reflexivity. Qed.

Example infinite_dataloader_cycles :
  map (infinite_dataloader [1; 2; 3] 2) [0; 1; 2; 3]
  = [Some [1; 2]; Some [3]; Some [1; 2]; Some [3]].
Proof. reflexivity. Qed.

Example broadcast_shapes :
  broadcast Rminus [1; 2; 3]%R [1; 2]%R = None /\
  broadcast Rminus [1]%R [1; 2]%R = Some [1 - 1; 1 - 2]%R.
Proof. split; reflexivity. Qed.

(** The model run on the small instance. *)
Example toy_train_run :
  train [[1%R]] [1%R] 3 1 0 0.01 0 0.05 (toy_world true true)
  = Returns tt toy_trained.
Proof. reflexivity. Qed.

Lemma toy_runnable (S : Z) :
  (0 <= S)%Z -> runnable (toy_world true true) [[1%R]] [1%R] S.
Proof. intros HS. repeat split; [simpl; lia | exact HS]. Qed.



(** C2 at the run with S=3, K=1, B=0: the steps 1 and 2 are recorded and
    step 0 is not. *)
Lemma snapshot_recorded_iff_witness :
  final_world (train [[1%R]] [1%R] 3 1 0 0.01 0 0.05 (toy_world true true))
  = Some toy_trained /\
  exists records,
    debug_log toy_trained
    = debug_log (toy_world true true) ++ map Recording_sample records /\
    length (sampled_weights (self toy_trained)) = length records /\
    (forall step, step ∈ records ->
       (0 <= step < 3)%Z /\ (step > 0)%Z /\ ((step - 0) mod 1 = 0)%Z) /\
    (train [[1%R]] [1%R] 3 1 0 0.01 0 0.05 (toy_world true true)
     = Returns tt toy_trained ->
     forall step,
       (0 <= step < 3)%Z -> (step > 0)%Z -> 1%Z <> 0%Z ->
       ((step - 0) mod 1 = 0)%Z -> step ∈ records).
Proof.
  split; [reflexivity|].
  apply (snapshot_recorded_iff [[1%R]] [1%R] 3 1 0 0.01 0 0.05
           (toy_world true true) toy_trained).
  reflexivity.
Defined.

(** C3 at a trainer constructed with [normalize_input=False]. *)
Lemma train_without_normalization_raises_witness :
  normalize_input (self (toy_world false true))
  && normalize_output (self (toy_world false true)) = false /\
  exists w',
    train [[1%R]] [1%R] 150 10 100 0.01 0 0.05 (toy_world false true)
    = Raises (UnboundLocalError "x_train_") w' /\
    model (self w') = model (self (toy_world false true)) /\
    mem w' = mem (toy_world false true) /\
    sampled_weights (self w') = [] /\
    is_trained (self w') = is_trained (self (toy_world false true)).
Proof.
  split; [reflexivity|].
  apply (train_without_normalization_raises [[1%R]] [1%R] 150 10 100 0.01 0 0.05
           (toy_world false true)).
  reflexivity.
Defined.



(** C5 at a batch of two. *)
Lemma nll_is_negative_mean_log_likelihood_witness :
  length [2; 2]%R = length [(1, 0); (3, 0)]%R /\
  nll [(1, 0); (3, 0)]%R [2; 2]%R
  = Some (- (1 / INR (length [(1, 0); (3, 0)]%R)) *
          Rsum (zip_with
                  (fun o y => - 0.5 * (y - fst o) ^ 2
                                * (1 / (exp (snd o) + 1e-16))
                              - 0.5 * snd o)
                  [(1, 0); (3, 0)] [2; 2]))%R.
Proof.
  split; [reflexivity|].
  apply (nll_is_negative_mean_log_likelihood [(1, 0); (3, 0)]%R [2; 2]%R).
  reflexivity.
Defined.

(** C6 at the spec's example. *)
Lemma ensemble_moments_witness :
  [[(1, 0)]; [(3, 0)]]%R <> [] /\
  Forall (fun out : list (R * R) => length out = 1) [[(1, 0)]; [(3, 0)]]%R /\
  0 < 1 /\
  (mean_prediction [[(1, 0)]; [(3, 0)]] = [2] /\
   variance_prediction [[(1, 0)]; [(3, 0)]] = [2])%R.
Proof.
  split; [discriminate|]. split; [repeat constructor|]. split; [lia|].
  apply (ensemble_moments [[(1, 0)]; [(3, 0)]]%R 1 0);
    [discriminate | repeat constructor | lia].
Defined.

(** C7 at the trained small instance. *)
Lemma predict_unnormalizes_output_witness :
  normalize_output (self toy_trained) = true /\
  y_stats (self toy_trained) = Some (0, 1)%R /\
  model (self toy_trained) = Some toy_module /\
  sampled_weights (self toy_trained) <> [] /\
  (normalize_input (self toy_trained) = true ->
   is_Some (x_stats (self toy_trained))) /\
  exists outs w' individual,
    ensemble_outputs [[1%R]] toy_trained = Returns outs w' /\
    predict [[1%R]] false toy_trained
    = Returns (map (fun v => v * 1 + 0)%R (mean_prediction outs),
               map (fun v => v * 1 ^ 2)%R (variance_prediction outs),
               individual) w'.
Proof.
  split; [reflexivity|]. split; [reflexivity|]. split; [reflexivity|].
  split; [discriminate|]. split; [intros _; eexists; reflexivity|].
  apply (predict_unnormalizes_output [[1%R]] false toy_trained toy_module);
    [reflexivity | reflexivity | reflexivity | discriminate
    | intros _; eexists; reflexivity].
Defined.

(** C8 at batch sizes 0 and 20. *)
Lemma init_checks_batch_size_witness :
  (0 < 1)%Z /\ (1 <= 20)%Z /\
  @__init__ toy 0 true true = inl (AssertionError invalid_batch_size) /\
  (forall h x y S K B lr noise mdecay,
     @construct_and_train toy 0 true true h x y S K B lr noise mdecay
     = inl (AssertionError invalid_batch_size)) /\
  exists t, @__init__ toy 20 true true = inr t /\
    batch_size t = 20%Z /\ normalize_input t = true /\
    normalize_output t = true /\ untrained t.
Proof.
  split; [lia|]. split; [lia|].
  destruct (@init_checks_batch_size toy 0 true true) as [Hfail _].
  destruct (@init_checks_batch_size toy 20 true true) as [_ Hok].
  split; [apply Hfail; lia|]. split; [apply Hfail; lia|]. apply Hok. lia.
Defined.


(** C10 at the trained small instance: after [predict] the parameter holds
    the value of the second snapshot. *)
Lemma predict_leaves_last_snapshot_witness :
  well_formed toy_trained /\
  model (self toy_trained) = Some toy_module /\
  statistics_stored (self toy_trained) /\
  last (sampled_weights (self toy_trained)) = Some [2] /\
  exists result w',
    predict [[1%R]] false toy_trained = Returns result w' /\
    load_all (mem w') (parameters toy_module) = load_all (mem w') [2] /\
    load_all (mem w') [2] = load_all (mem toy_trained) [2] /\
    self w' = self toy_trained /\
    stored_values w' = stored_values toy_trained.
Proof.
  assert (Hstats : statistics_stored (self toy_trained))
    by (split; intros _; eexists; reflexivity).
  split; [exact toy_trained_well_formed|]. split; [reflexivity|].
  split; [exact Hstats|]. split; [reflexivity|].
  apply (predict_leaves_last_snapshot [[1%R]] false toy_trained toy_module [2]);
    [exact toy_trained_well_formed | reflexivity | exact Hstats | reflexivity].
Defined.

(** * Further properties of the code *)

(** ** Sums *)

Lemma Rsum_map_plus {A} (f g : A -> R) (l : list A) :
  Rsum (map (fun a => f a + g a)%R l) = (Rsum (map f l) + Rsum (map g l))%R.
Proof. induction l as [|a l IH]; simpl; [lra|]. rewrite IH. lra. Qed.

Lemma Rsum_map_affine {A} (f : A -> R) (c d : R) (l : list A) :
  Rsum (map (fun a => f a * c + d)%R l)
  = (Rsum (map f l) * c + INR (length l) * d)%R.
Proof.
  induction l as [|a l IH]; [simpl; lra|].
  change (Rsum (map (fun a0 => f a0 * c + d)%R (a :: l)))
    with (f a * c + d + Rsum (map (fun a0 => f a0 * c + d)%R l))%R.
  change (Rsum (map f (a :: l))) with (f a + Rsum (map f l))%R.
  rewrite IH. change (length (a :: l)) with (S (length l)). rewrite S_INR. lra.
Qed.

Lemma Rsum_map_deviation {A} (f : A -> R) (m : R) (l : list A) :
  Rsum (map (fun a => (f a - m) ^ 2)%R l)
  = (Rsum (map (fun a => f a ^ 2) l) - 2 * m * Rsum (map f l)
     + INR (length l) * m ^ 2)%R.
Proof.
  induction l as [|a l IH]; [simpl; lra|].
  change (Rsum (map (fun a0 => (f a0 - m) ^ 2)%R (a :: l)))
    with ((f a - m) ^ 2 + Rsum (map (fun a0 => (f a0 - m) ^ 2)%R l))%R.
  change (Rsum (map (fun a0 => f a0 ^ 2)%R (a :: l)))
    with (f a ^ 2 + Rsum (map (fun a0 => f a0 ^ 2)%R l))%R.
  change (Rsum (map f (a :: l))) with (f a + Rsum (map f l))%R.
  rewrite IH. change (length (a :: l)) with (S (length l)). rewrite S_INR. ring.
Qed.

Lemma INR_length_pos {A} (l : list A) : l <> [] -> (0 < INR (length l))%R.
Proof.
  intros H. destruct l; [congruence|]. apply lt_0_INR. simpl. lia.
Qed.

(** ** The ensemble variance *)

(** The two parts of the estimator at one test point: the mean predicted
    variance and the spread of the predicted means. *)
Lemma variance_split (pt : list (R * R)) :
  pt <> [] ->
  ensemble_variance_spec pt
  = (arithmetic_mean (map (fun o => exp (snd o)) pt)
     + arithmetic_mean
         (map (fun o => (fst o - arithmetic_mean (map fst pt)) ^ 2) pt))%R.
Proof.
  intros Hne. pose proof (INR_length_pos pt Hne) as Hn.
  unfold ensemble_variance_spec, ensemble_mean_spec, arithmetic_mean.
  rewrite !length_map.
  rewrite (Rsum_map_plus (fun o => fst o ^ 2)%R (fun o => exp (snd o))).
  rewrite (Rsum_map_deviation fst).
  field. lra.
Qed.

Lemma mean_axis0_length (M : nat) (a : list (list R)) :
  a <> [] -> Forall (fun row => length row = M) a -> length (mean_axis0 a) = M.
Proof.
  intros Hne Hrows. destruct a as [|r rs]; [congruence|].
  inversion Hrows; subst. unfold mean_axis0. rewrite length_map. simpl.
  apply fold_left_zip_with_length; auto.
Qed.

(** X1.  Law of total variance: at every test point the variance of lines
    285-286 is the mean over the snapshots of the predicted variances
    [exp(l)] plus the mean squared deviation of the predicted means from the
    ensemble mean, which is the estimator of the commented-out line 283. *)
Theorem total_variance_decomposition
    (network_outputs : list (list (R * R))) (M j : nat) :
  network_outputs <> [] ->
  Forall (fun out => length out = M) network_outputs -> j < M ->
  exists mean,
    mean_prediction network_outputs !! j = Some mean /\
    variance_prediction network_outputs !! j
    = Some (arithmetic_mean
              (map (fun o => exp (snd o)) (at_test_point j network_outputs))
            + arithmetic_mean
                (map (fun o => (fst o - mean) ^ 2)
                     (at_test_point j network_outputs)))%R.
Proof.
  intros Hne Hrows Hj.
  exists (arithmetic_mean (map fst (at_test_point j network_outputs))).
  split; [apply (mean_prediction_lookup M); assumption|].
  rewrite (variance_prediction_lookup M) by assumption.
  f_equal. apply variance_split.
  unfold at_test_point. destruct network_outputs; [congruence|discriminate].
Qed.

(** ** The loss on batches of any shape *)

Lemma broadcast_some (f : R -> R -> R) (a b : list R) :
  length a = length b \/ length a = 1 \/ length b = 1 ->
  exists c, broadcast f a b = Some c /\
            (length a = 1 -> length c = length b) /\
            (length a <> 1 -> length c = length a).
Proof.
  intros H. unfold broadcast.
  destruct (Nat.eqb_spec (length a) (length b)) as [E|E].
  - eexists. split; [reflexivity|]. rewrite length_zip_with. lia.
  - destruct (Nat.eqb_spec (length a) 1) as [E1|E1].
    + eexists. split; [reflexivity|]. rewrite length_map. lia.
    + destruct (Nat.eqb_spec (length b) 1) as [E2|E2]; [|lia].
      eexists. split; [reflexivity|]. rewrite length_map. lia.
Qed.

Lemma broadcast_none (f : R -> R -> R) (a b : list R) :
  ~ (length a = length b \/ length a = 1 \/ length b = 1) ->
  broadcast f a b = None.
Proof.
  intros H. unfold broadcast.
  destruct (Nat.eqb_spec (length a) (length b)); [tauto|].
  destruct (Nat.eqb_spec (length a) 1); [tauto|].
  destruct (Nat.eqb_spec (length b) 1); [tauto|reflexivity].
Qed.

(** X2.  [nll] accepts exactly the shapes that torch can broadcast: it
    returns a loss when the target vector has as many entries as the
    output has rows, or when one of the two has a single row, and fails on
    any other pair of sizes.  A size mismatch with a single row on one side
    is therefore not reported. *)
Theorem nll_defined_iff (input : list (R * R)) (target : list R) :
  is_Some (nll input target) <->
  length target = length input \/ length target = 1 \/ length input = 1.
Proof.
  split.
  - intros [v Hv]. destruct (Nat.eq_dec (length target) (length input)) as [E|E];
      [left; exact E|].
    destruct (Nat.eq_dec (length target) 1) as [E1|E1]; [right; left; exact E1|].
    destruct (Nat.eq_dec (length input) 1) as [E2|E2]; [right; right; exact E2|].
    unfold nll in Hv. rewrite broadcast_none in Hv; [discriminate|].
    rewrite length_map. lia.
  - intros H. unfold nll.
    destruct (broadcast_some Rminus target (map fst input)) as (d & -> & Hd);
      [rewrite length_map; exact H|].
    rewrite length_map in Hd.
    destruct (broadcast_some Rmult (map Ropp (map (fun x => x ^ 2)%R d))
                (map (Rmult 0.5)
                   (map (fun l => 1 / (exp l + 1e-16))%R (map snd input))))
      as (e & -> & He); [rewrite !length_map; lia|].
    rewrite !length_map in He.
    destruct (broadcast_some Rminus e (map (Rmult 0.5) (map snd input)))
      as (g & -> & Hg); [rewrite !length_map; lia|].
    eexists; reflexivity.
Qed.

(** ** The default network *)

Lemma Linear_returns (n_in n_out : nat) (weight bias x : list R) :
  length x = n_in ->
  exists h, Linear n_in n_out weight bias x = inr h /\ length h = n_out.
Proof.
  intros H. unfold Linear. rewrite H, Nat.eqb_refl.
  eexists. split; [reflexivity|]. rewrite length_map. apply length_seq.
Qed.

Lemma default_network_returns (D : nat) (p : default_parameters) (x : list R) :
  length x = D ->
  exists mu,
    default_network_forward D p x
    = inr [mu; (nth 0 (append_bias p) 0 * 1)%R].
Proof.
  intros H. unfold default_network_forward.
  destruct (Linear_returns D 50 (weight0 p) (bias0 p) x H) as (h0 & -> & H0).
  destruct (Linear_returns 50 50 (weight2 p) (bias2 p) (map tanh h0))
    as (h2 & -> & H2); [rewrite length_map; exact H0|].
  destruct (Linear_returns 50 50 (weight4 p) (bias4 p) (map tanh h2))
    as (h4 & -> & H4); [rewrite length_map; exact H2|].
  destruct (Linear_returns 50 1 (weight6 p) (bias6 p) (map tanh h4))
    as (h6 & -> & H6); [rewrite length_map; exact H4|].
  destruct h6 as [|mu [|? ?]]; try discriminate.
  exists mu. reflexivity.
Qed.

(** X3.  The default network is homoscedastic: on an input row of the
    expected width it returns two outputs, and the second one, which the
    loss and [predict] read as the log-variance, is the bias of
    [AppendLayer] whatever the input row and the weights of the linear
    layers are; a row of another width is rejected. *)
Theorem default_network_log_variance (D : nat) (p : default_parameters)
    (x : list R) :
  (length x = D ->
   exists mu,
     default_network_forward D p x
     = inr [mu; (nth 0 (append_bias p) 0 * 1)%R]) /\
  (length x <> D -> default_network_forward D p x = inl RuntimeError).
Proof.
  split.
  - apply default_network_returns.
  - intros H. unfold default_network_forward, Linear.
    destruct (Nat.eqb_spec (length x) D); [contradiction|reflexivity].
Qed.

Section MoreFacts.
Context `{C : Collaborators}.

Ltac step_run := unfold bind, ret, get, modify, raise, hang, local; simpl.

(** ** The property [network_weights], both ways *)




(** ** What [predict] returns *)

Lemma test_input_length (t : Bohamiann) (x : list (list R)) :
  length (test_input t x) = length x.
Proof.
  unfold test_input. destruct (normalize_input t); [|reflexivity].
  destruct (x_stats t); [apply normalization_rows|reflexivity].
Qed.

Lemma for_each_network_predict_rows m x (snaps : list (list nat)) :
  forall (w : world) outs w',
  model (self w) = Some m ->
  for_each (network_predict x) snaps w = Returns outs w' ->
  Forall (fun out => length out = length x) outs /\
  length outs = length snaps.
Proof.
  induction snaps as [|snap snaps IH]; intros w outs w' Hm Hrun.
  - simpl in Hrun. unfold ret in Hrun. injection Hrun as <- <-.
    split; [constructor|reflexivity].
  - simpl in Hrun. unfold bind at 1 in Hrun.
    rewrite (network_predict_returns m) in Hrun by exact Hm.
    set (w1 := with_mem (copy_all (zip (parameters m) snap)) w) in Hrun.
    destruct (for_each_network_predict_returns m x snaps w1 Hm)
      as (outs1 & w1' & Hrun1 & _ & _).
    unfold bind in Hrun. rewrite Hrun1 in Hrun. unfold ret in Hrun.
    injection Hrun as <- <-.
    destruct (IH w1 outs1 w1' Hm Hrun1) as [Hrows Hlen].
    split; [constructor; [apply length_map|exact Hrows]|simpl; lia].
Qed.

Lemma for_each_network_predict_no_model x snap (snaps : list (list nat)) w :
  model (self w) = None ->
  for_each (network_predict x) (snap :: snaps) w
  = Raises (AttributeError "model") w.
Proof.
  intros Hm. simpl. unfold bind at 1.
  unfold network_predict, set_network_weights, the_model.
  step_run. rewrite Hm. reflexivity.
Qed.

Lemma predict_ensemble_raises x flag w e w1 :
  (normalize_input (self w) = true -> is_Some (x_stats (self w))) ->
  ensemble_outputs x w = Raises e w1 ->
  predict x flag w = Raises e w1.
Proof.
  intros Hx Hrun. unfold ensemble_outputs, test_input in Hrun.
  unfold predict. step_run.
  destruct (normalize_input (self w)).
  - destruct (x_stats (self w)) as [stats|].
    + rewrite Hrun. reflexivity.
    + destruct Hx as [? Hx]; [reflexivity|discriminate].
  - rewrite Hrun. reflexivity.
Qed.

(** A [predict] call that returns had a model, the statistics of the
    inputs if it needed them, and at least one snapshot. *)
Lemma predict_returns_inv x flag w r w' :
  predict x flag w = Returns r w' ->
  exists m out outs,
    model (self w) = Some m /\
    (normalize_input (self w) = true -> is_Some (x_stats (self w))) /\
    ensemble_outputs x w = Returns (out :: outs) w' /\
    Forall (fun o => length o = length x) (out :: outs) /\
    length (out :: outs) = length (sampled_weights (self w)).
Proof.
  intros Hp.
  assert (Hx : normalize_input (self w) = true -> is_Some (x_stats (self w))).
  { intros Hni. destruct (x_stats (self w)) as [stats|] eqn:Hxs;
      [eexists; reflexivity|].
    unfold predict in Hp. revert Hp. step_run. rewrite Hni, Hxs. discriminate. }
  destruct (sampled_weights (self w)) as [|snap snaps] eqn:Hstore.
  { rewrite predict_without_snapshot in Hp by exact Hstore. discriminate. }
  destruct (model (self w)) as [m|] eqn:Hm.
  2:{ rewrite (predict_ensemble_raises x flag w (AttributeError "model") w Hx)
        in Hp; [discriminate|].
      unfold ensemble_outputs. rewrite Hstore.
      apply for_each_network_predict_no_model, Hm. }
  destruct (for_each_network_predict_returns m (test_input (self w) x)
              (sampled_weights (self w)) w Hm)
    as (outs & w1 & Hrun & _ & _).
  destruct (for_each_network_predict_rows m _ _ w outs w1 Hm Hrun)
    as [Hrows Hlen].
  rewrite test_input_length in Hrows.
  rewrite (predict_after_replay x flag w outs w1 Hx Hrun) in Hp.
  rewrite Hstore in Hrun, Hlen.
  destruct outs as [|out outs]; [discriminate|].
  exists m, out, outs. split; [reflexivity|]. split; [exact Hx|].
  assert (Hw : w1 = w').
  { destruct (normalize_output (self w));
      [destruct (y_stats (self w)) as [[ym ys]|]|];
      first [discriminate | injection Hp as _ <-; reflexivity]. }
  subst w1. unfold ensemble_outputs. rewrite Hstore.
  split; [exact Hrun|]. split; [exact Hrows|exact Hlen].
Qed.

(** The mean over the snapshots commutes with an affine map of the
    entries. *)
Lemma mean_axis0_affine (M : nat) (c d : R) (rows : list (list R)) :
  rows <> [] -> Forall (fun row => length row = M) rows ->
  mean_axis0 (map (map (fun v => v * c + d)%R) rows)
  = map (fun v => v * c + d)%R (mean_axis0 rows).
Proof.
  intros Hne Hrows.
  assert (Hne' : map (map (fun v => v * c + d)%R) rows <> [])
    by (destruct rows; [congruence|discriminate]).
  assert (Hrows' : Forall (fun row => length row = M)
                          (map (map (fun v => v * c + d)%R) rows)).
  { rewrite Forall_map. eapply Forall_impl; [exact Hrows|].
    intros row Hrow. simpl. rewrite length_map. exact Hrow. }
  apply list_eq. intros i. rewrite list_lookup_fmap.
  destruct (le_lt_dec M i) as [Hge|Hlt].
  - rewrite !lookup_ge_None_2; [reflexivity| |];
      rewrite (mean_axis0_length M) by assumption; exact Hge.
  - rewrite (mean_axis0_lookup M) by assumption.
    rewrite (mean_axis0_lookup M) by assumption.
    simpl. f_equal. unfold arithmetic_mean. rewrite !length_map, map_map.
    pose proof (INR_length_pos rows Hne) as Hn.
    replace (map (fun row => nth i (map (fun v => v * c + d)%R row) 0%R) rows)
      with (map (fun row => nth i row 0 * c + d)%R rows).
    + rewrite (Rsum_map_affine (fun row : list R => nth i row 0%R)).
      field. lra.
    + apply map_ext_in. intros row Hin.
      rewrite Forall_forall in Hrows.
      rewrite (nth_indep (map (fun v => v * c + d)%R row) 0%R (0 * c + d)%R).
      * symmetry. apply (map_nth (fun v => v * c + d)%R row 0%R i).
      * rewrite length_map, (Hrows row); [exact Hlt|].
        apply list_elem_of_In, Hin.
Qed.

(** X6.  When the individual predictions are asked for, the ensemble mean
    that [predict] returns is the mean over the snapshots of the individual
    predictions it returns, with and without output normalization. *)
Theorem predict_mean_of_individual_predictions x w mean var ind w' :
  predict x true w = Returns (mean, var, ind) w' ->
  exists rows, ind = Some rows /\ mean = mean_axis0 rows.
Proof.
  intros Hp.
  destruct (predict_returns_inv x true w _ w' Hp)
    as (m & out & outs & Hm & Hx & Hrun & Hrows & Hlen).
  rewrite (predict_after_replay x true w _ w' Hx Hrun) in Hp.
  destruct (normalize_output (self w)).
  - destruct (y_stats (self w)) as [[ym ys]|]; [|discriminate].
    injection Hp as <- _ <-. eexists. split; [reflexivity|].
    unfold zero_mean_unit_var_unnormalization, mean_prediction.
    rewrite <- (mean_axis0_affine (length x)).
    + f_equal. rewrite !map_map.
      change (map fst (zero_mean_unit_var_unnormalization_2d out ym ys)
              :: map (fun o => map fst
                         (zero_mean_unit_var_unnormalization_2d o ym ys)) outs)
        with (map (fun o => map fst
                      (zero_mean_unit_var_unnormalization_2d o ym ys))
                  (out :: outs)).
      apply map_ext. intros o.
      unfold zero_mean_unit_var_unnormalization_2d. rewrite !map_map.
      reflexivity.
    + discriminate.
    + rewrite Forall_map. eapply Forall_impl; [exact Hrows|].
      intros o Ho. simpl. rewrite length_map. exact Ho.
  - injection Hp as <- _ <-. eexists. split; reflexivity.
Qed.

(** ** What [predict] does not depend on *)

Lemma predict_same_result x flag w w2 m r w' :
  well_formed w -> model (self w) = Some m ->
  same_but (parameters m) w w2 ->
  predict x flag w = Returns r w' ->
  exists w2', predict x flag w2 = Returns r w2'.
Proof.
  intros Hwf Hm Hsame Hp.
  pose proof Hsame as (Hs & _ & Hl & _).
  destruct (predict_returns_inv x flag w r w' Hp) as (_ & _ & _ & _ & Hx & _).
  destruct (well_formed_parameters m w Hwf Hm) as (Hnd & Hps & Hsn).
  pose proof (same_but_well_formed m w w2 Hm Hsame Hwf) as Hwf2.
  assert (Hm2 : model (self w2) = Some m) by (rewrite Hs; exact Hm).
  destruct (well_formed_parameters m w2 Hwf2 Hm2) as (_ & Hps2 & Hsn2).
  destruct (for_each_network_predict m (test_input (self w) x)
              (sampled_weights (self w)) w Hm Hnd Hps Hsn)
    as (w1 & Hrun & _ & _).
  destruct (for_each_network_predict m (test_input (self w2) x)
              (sampled_weights (self w2)) w2 Hm2 Hnd Hps2 Hsn2)
    as (w2' & Hrun2 & _ & _).
  assert (Hx2 : normalize_input (self w2) = true -> is_Some (x_stats (self w2)))
    by (rewrite Hs; exact Hx).
  rewrite (predict_after_replay x flag w _ w1 Hx Hrun) in Hp.
  exists w2'. rewrite (predict_after_replay x flag w2 _ w2' Hx2 Hrun2).
  rewrite Hs.
  replace (map (fun snap =>
             map (forward (arch m) (load_all (mem w2) snap))
                 (test_input (self w) x)) (sampled_weights (self w)))
    with (map (fun snap =>
             map (forward (arch m) (load_all (mem w) snap))
                 (test_input (self w) x)) (sampled_weights (self w))).
  - destruct (map _ (sampled_weights (self w))) as [|out outs]; [discriminate|].
    destruct (normalize_output (self w)).
    + destruct (y_stats (self w)) as [[ym ys]|]; [|discriminate].
      injection Hp as <- _. reflexivity.
    + injection Hp as <- _. reflexivity.
  - apply map_ext_in. intros snap Hin. f_equal. f_equal. symmetry.
    apply (same_but_load_all (parameters m) w w2); [exact Hsame|].
    rewrite Forall_forall in Hsn.
    eapply snapshot_ok_disjoint, Hsn, list_elem_of_In, Hin.
Qed.

(** X7.  The result of [predict] is a function of the stored snapshots
    and not of the values the live parameters happen to hold: from a world
    that differs only in the buffers of the parameters the same result is
    returned, and so a second [predict] call right after the first returns
    the same result again. *)
Theorem predict_depends_on_snapshots_only x flag w w2 m r w' :
  well_formed w -> model (self w) = Some m ->
  same_but (parameters m) w w2 ->
  predict x flag w = Returns r w' ->
  (exists w2', predict x flag w2 = Returns r w2') /\
  (exists w'', predict x flag w' = Returns r w'').
Proof.
  intros Hwf Hm Hsame Hp. split.
  - exact (predict_same_result x flag w w2 m r w' Hwf Hm Hsame Hp).
  - apply (predict_same_result x flag w w' m r w' Hwf Hm); [|exact Hp].
    apply (predict_same_but m x flag w w' Hm). rewrite Hp. reflexivity.
Qed.

(** ** [train] at the edges *)

Lemma keep_sample_keep_every_zero (step B : Z) :
  keep_sample step B 0
  = if (step >? B)%Z then inl ZeroDivisionError else inr false.
Proof. unfold keep_sample. destruct (step >? B)%Z; reflexivity. Qed.

(** With [keep_every = 0] the loop runs the steps 0 to B+1 and raises at
    step B+1, the first one past the burn-in. *)
Lemma train_loop_keep_every_zero m dataset b B sampler w0 (n : nat) :
  model (self w0) = Some m ->
  Forall (fun p => p < length (mem w0)) (parameters m) -> (0 <= B)%Z ->
  (forall step, step < n -> is_Some (infinite_dataloader dataset b step)) ->
  ((Z.of_nat n <= B + 1)%Z ->
   exists s w,
     for_range n (train_step m dataset b 0 B) sampler w0 = Returns s w /\
     same_but (parameters m) w0 w) /\
  ((B + 1 < Z.of_nat n)%Z ->
   exists w,
     for_range n (train_step m dataset b 0 B) sampler w0
     = Raises ZeroDivisionError w /\
     same_but (parameters m) w0 w).
Proof.
  intros Hm Hps HB Hdata. induction n as [|n IH].
  - split; [|lia]. intros _. exists sampler, w0.
    split; [reflexivity|apply same_but_refl].
  - destruct IH as [IHr IHx]; [intros step Hstep; apply Hdata; lia|].
    destruct (Z_le_gt_dec (Z.of_nat n) (B + 1)) as [Hle|Hgt].
    + destruct (IHr Hle) as (s & w & Hrun & Hsame).
      pose proof Hsame as (Hs & _ & Hl & _).
      destruct (Hdata n) as [batch Hbatch]; [lia|].
      destruct (train_step_outcome m dataset b 0 B n s batch w)
        as (s' & w1 & Hsame1 & Hstep);
        [rewrite Hs; exact Hm | rewrite Hl; exact Hps | exact Hbatch |].
      rewrite keep_sample_keep_every_zero in Hstep.
      pose proof (same_but_trans _ _ _ _ Hsame Hsame1) as Hsame01.
      simpl. unfold bind. rewrite Hrun, Hstep.
      destruct (Z.gtb_spec (Z.of_nat n) B) as [Hn|Hn].
      * split; [lia|]. intros _. exists w1. split; [reflexivity|exact Hsame01].
      * split; [|lia]. intros _. exists s', w1.
        split; [reflexivity|exact Hsame01].
    + destruct (IHx ltac:(lia)) as (w & Hrun & Hsame).
      split; [lia|]. intros _. exists w. split; [|exact Hsame].
      simpl. unfold bind. rewrite Hrun. reflexivity.
Qed.

(** X8.  [keep_every = 0] is only seen once the burn-in is over: a
    runnable call on a non-empty data set with [num_steps <= B + 1] returns
    without a snapshot and sets [is_trained], and with [num_steps > B + 1]
    it raises [ZeroDivisionError], the [%] of line 256, with no snapshot
    and [is_trained] as it was. *)
Theorem train_keep_every_zero x y S B lr noise mdecay w :
  runnable w x y S -> 0 < length x -> (0 <= B)%Z ->
  ((S <= B + 1)%Z ->
   exists w',
     train x y S 0 B lr noise mdecay w = Returns tt w' /\
     sampled_weights (self w') = [] /\ is_trained (self w') = true) /\
  ((B + 1 < S)%Z ->
   exists w',
     train x y S 0 B lr noise mdecay w = Raises ZeroDivisionError w' /\
     sampled_weights (self w') = [] /\
     is_trained (self w') = is_trained (self w)).
Proof.
  intros Hrunnable Hx HB.
  destruct (prepared_well_formed x y w) as (Hm & Hwf).
  destruct (well_formed_parameters _ _ Hwf Hm) as (_ & Hps & _).
  pose proof Hrunnable as (_ & _ & Hb & Hxy & HS).
  assert (Hdata : forall step, step < Z.to_nat S ->
            is_Some (infinite_dataloader (training_set x y)
                       (Z.to_nat (batch_size (self w))) step)).
  { intros step _. apply dataloader_yields; [|lia].
    rewrite training_set_length by exact Hxy. exact Hx. }
  destruct (train_loop_keep_every_zero (prepared_module x w) (training_set x y)
              (Z.to_nat (batch_size (self w))) B
              (prepared_sampler x y B lr noise mdecay w)
              (prepared x y w) (Z.to_nat S) Hm Hps HB Hdata)
    as [Hret Hraise].
  rewrite Z2Nat.id in Hret, Hraise by exact HS.
  rewrite train_enters_loop by exact Hrunnable.
  split; intros HSB.
  - destruct (Hret HSB) as (s & w1 & Hrun & Hs & _).
    exists (with_self (set_is_trained true) w1).
    unfold bind. rewrite Hrun. split; [reflexivity|].
    simpl. rewrite Hs. split; reflexivity.
  - destruct (Hraise HSB) as (w1 & Hrun & Hs & _).
    exists w1. unfold bind. rewrite Hrun. split; [reflexivity|].
    rewrite Hs. split; reflexivity.
Qed.


(** ** What [train] leaves alone *)

(** Wherever the loop stands, the trainer holds the model and its
    parameters are allocated. *)
Lemma train_loop_returns_state m dataset b K B sampler w0 :
  well_formed w0 -> model (self w0) = Some m ->
  forall (n : nat) s wn,
    for_range n (train_step m dataset b K B) sampler w0 = Returns s wn ->
    model (self wn) = Some m /\
    Forall (fun p => p < length (mem wn)) (parameters m).
Proof.
  intros Hwf Hm. induction n as [|n IH]; intros s wn Hrun.
  - simpl in Hrun. unfold ret in Hrun. injection Hrun as _ <-.
    split; [exact Hm|]. apply (well_formed_parameters m w0 Hwf Hm).
  - simpl in Hrun. unfold bind in Hrun.
    destruct (for_range n (train_step m dataset b K B) sampler w0)
      as [s' wn'|e wn'|] eqn:Hrun'; try discriminate.
    destruct (IH s' wn' eq_refl) as [Hm' Hps'].
    destruct (infinite_dataloader dataset b n) as [batch|] eqn:Hbatch.
    2:{ unfold train_step in Hrun. rewrite Hbatch in Hrun. discriminate. }
    destruct (train_step_outcome m dataset b K B n s' batch wn'
                Hm' Hps' Hbatch) as (s'' & w1 & Hsame1 & Hstep).
    rewrite Hstep in Hrun. pose proof Hsame1 as (Hs & _ & Hl & _).
    destruct (keep_sample (Z.of_nat n) B K) as [e|[|]]; try discriminate;
      injection Hrun as _ <-; simpl; rewrite ?Hs, ?length_app, Hl.
    + split; [exact Hm'|]. eapply Forall_impl; [exact Hps'|].
      simpl. intros; lia.
    + split; [exact Hm'|exact Hps'].
Qed.

(** Any property of worlds that survives a rewrite of the parameters and
    the recording of a snapshot holds wherever the loop ends. *)
Lemma train_loop_preserves (P : world -> Prop) m dataset b K B sampler w0 :
  well_formed w0 -> model (self w0) = Some m ->
  P w0 ->
  (forall w w1, P w -> same_but (parameters m) w w1 -> P w1) ->
  (forall step w, P w -> P (recorded m step w)) ->
  forall (n : nat) w,
    final_world (for_range n (train_step m dataset b K B) sampler w0) = Some w ->
    P w.
Proof.
  intros Hwf Hm H0 Hsame Hrec. induction n as [|n IH]; intros w Hfin.
  - simpl in Hfin. injection Hfin as <-. exact H0.
  - simpl in Hfin. unfold bind in Hfin.
    destruct (for_range n (train_step m dataset b K B) sampler w0)
      as [s wn|e wn|] eqn:Hrun; [|exact (IH w Hfin)|discriminate].
    pose proof (IH wn eq_refl) as Hn.
    destruct (infinite_dataloader dataset b n) as [batch|] eqn:Hbatch.
    2:{ unfold train_step in Hfin. rewrite Hbatch in Hfin. discriminate. }
    destruct (train_loop_returns_state m dataset b K B sampler w0 Hwf Hm
                n s wn Hrun) as [Hmn Hpsn].
    destruct (train_step_outcome m dataset b K B n s batch wn Hmn Hpsn Hbatch)
      as (s' & w1 & Hsame1 & Hstep).
    rewrite Hstep in Hfin. pose proof (Hsame wn w1 Hn Hsame1) as H1.
    destruct (keep_sample (Z.of_nat n) B K) as [e|[|]];
      simpl in Hfin; injection Hfin as <-; [exact H1|apply Hrec, H1|exact H1].
Qed.

(** X10.  A runnable [train] call leaves the buffers of its caller alone:
    every buffer that existed before the call, such as the arrays of
    snapshots taken by an earlier call, holds the same values when the
    call ends, by return or by exception. *)
Theorem train_leaves_old_buffers x y S K B lr noise mdecay w w' :
  runnable w x y S ->
  final_world (train x y S K B lr noise mdecay w) = Some w' ->
  forall l v, mem w !! l = Some v -> mem w' !! l = Some v.
Proof.
  intros Hrunnable Hfin.
  rewrite train_enters_loop in Hfin by exact Hrunnable.
  destruct (prepared_well_formed x y w) as (Hm & Hwf).
  set (P := fun w1 : world =>
              forall l v, mem w !! l = Some v -> mem w1 !! l = Some v).
  assert (Hend : forall w1,
            final_world
              (for_range (Z.to_nat S)
                 (train_step (prepared_module x w) (training_set x y)
                             (Z.to_nat (batch_size (self w))) K B)
                 (prepared_sampler x y B lr noise mdecay w)
                 (prepared x y w)) = Some w1 -> P w1).
  { intros w1. apply (train_loop_preserves P); try assumption.
    - intros l v Hl. simpl. rewrite lookup_app_l; [exact Hl|].
      eapply lookup_lt_Some, Hl.
    - intros wa wb Ha (_ & _ & _ & Hmem) l v Hl. rewrite Hmem; [apply Ha, Hl|].
      simpl. intros Hin. apply elem_of_seq in Hin.
      apply lookup_lt_Some in Hl. lia.
    - intros step wa Ha l v Hl. simpl. rewrite lookup_app_l; [apply Ha, Hl|].
      eapply lookup_lt_Some, Ha, Hl. }
  unfold bind in Hfin.
  destruct (for_range _ _ _ _) as [s w1|e w1|] eqn:Hrun; try discriminate.
  - simpl in Hfin. injection Hfin as <-. exact (Hend w1 eq_refl).
  - simpl in Hfin. injection Hfin as <-. exact (Hend w1 eq_refl).
Qed.

End MoreFacts.

(** * The further properties at concrete inputs *)

Lemma total_variance_decomposition_witness :
  [[(1, 0)]; [(3, 0)]]%R <> [] /\
  Forall (fun out : list (R * R) => length out = 1) [[(1, 0)]; [(3, 0)]]%R /\
  0 < 1 /\
  exists mean,
    mean_prediction [[(1, 0)]; [(3, 0)]]%R !! 0 = Some mean /\
    variance_prediction [[(1, 0)]; [(3, 0)]]%R !! 0
    = Some (arithmetic_mean
              (map (fun o => exp (snd o))
                   (at_test_point 0 [[(1, 0)]; [(3, 0)]]%R))
            + arithmetic_mean
                (map (fun o => (fst o - mean) ^ 2)
                     (at_test_point 0 [[(1, 0)]; [(3, 0)]]%R)))%R.
Proof.
  split; [discriminate|]. split; [repeat constructor|]. split; [lia|].
  apply (total_variance_decomposition [[(1, 0)]; [(3, 0)]]%R 1 0);
    [discriminate | repeat constructor | lia].
Defined.

Lemma nll_defined_iff_witness :
  (length [2; 2]%R = length [(1, 0)]%R \/ length [2; 2]%R = 1 \/
   length [(1, 0)]%R = 1) /\
  is_Some (nll [(1, 0)]%R [2; 2]%R) /\
  ~ is_Some (nll [(1, 0); (3, 0); (5, 0)]%R [2; 2]%R).
Proof.
  split; [right; right; reflexivity|]. split.
  - apply (nll_defined_iff [(1, 0)]%R [2; 2]%R). right; right; reflexivity.
  - intros H. apply (nll_defined_iff [(1, 0); (3, 0); (5, 0)]%R [2; 2]%R) in H.
    simpl in H. lia.
Defined.

Lemma default_network_log_variance_witness :
  length [1%R] = 1 /\ length [1; 2]%R <> 1 /\
  (exists mu,
     default_network_forward 1 toy_initial [1%R]
     = inr [mu; (nth 0 (append_bias toy_initial) 0 * 1)%R]) /\
  default_network_forward 1 toy_initial [1; 2]%R
  = inl RuntimeError.
Proof.
  split; [reflexivity|]. split; [simpl; lia|].
  split.
  - apply (default_network_log_variance 1 toy_initial [1%R]).
    reflexivity.
  - apply (default_network_log_variance 1 toy_initial [1; 2]%R).
    simpl. lia.
Defined.




Lemma toy_moved_same_but : same_but (parameters toy_module) toy_trained toy_moved.
Proof.
  repeat split. intros l Hl. destruct l as [|l]; [|reflexivity].
  exfalso. apply Hl. left.
Qed.

Lemma predict_mean_of_individual_predictions_witness :
  exists mean var ind w',
    predict [[1%R]; [2%R]] true toy_trained = Returns (mean, var, ind) w' /\
    exists rows, ind = Some rows /\ mean = mean_axis0 rows.
Proof.
  eexists _, _, _, _. split; [reflexivity|].
  eapply (predict_mean_of_individual_predictions [[1%R]; [2%R]] toy_trained).
  reflexivity.
Defined.

Lemma predict_depends_on_snapshots_only_witness :
  well_formed toy_trained /\
  model (self toy_trained) = Some toy_module /\
  same_but (parameters toy_module) toy_trained toy_moved /\
  exists r w',
    predict [[1%R]] false toy_trained = Returns r w' /\
    (exists w2', predict [[1%R]] false toy_moved = Returns r w2') /\
    (exists w'', predict [[1%R]] false w' = Returns r w'').
Proof.
  split; [exact toy_trained_well_formed|]. split; [reflexivity|].
  split; [exact toy_moved_same_but|].
  eexists _, _. split; [reflexivity|].
  eapply (predict_depends_on_snapshots_only [[1%R]] false toy_trained
            toy_moved toy_module);
    [exact toy_trained_well_formed | reflexivity | exact toy_moved_same_but
    | reflexivity].
Defined.

Lemma train_keep_every_zero_witness :
  runnable (toy_world true true) [[1%R]] [1%R] 150 /\
  0 < length [[1%R]] /\ (0 <= 100)%Z /\ (100 + 1 < 150)%Z /\
  exists w',
    train [[1%R]] [1%R] 150 0 100 0.01 0 0.05 (toy_world true true)
    = Raises ZeroDivisionError w' /\
    sampled_weights (self w') = [] /\
    is_trained (self w') = is_trained (self (toy_world true true)).
Proof.
  split; [apply toy_runnable; lia|]. split; [simpl; lia|].
  split; [lia|]. split; [lia|].
  destruct (train_keep_every_zero [[1%R]] [1%R] 150 100 0.01 0 0.05
              (toy_world true true)) as [_ Hraise];
    [apply toy_runnable; lia | simpl; lia | lia |].
  apply Hraise. lia.
Defined.


Lemma toy_trained_runnable : runnable toy_trained [[1%R]] [1%R] 3.
Proof. repeat split; simpl; lia. Qed.

Lemma train_leaves_old_buffers_witness :
  runnable toy_trained [[1%R]] [1%R] 3 /\
  exists w',
    final_world (train [[1%R]] [1%R] 3 1 0 0.01 0 0.05 toy_trained) = Some w' /\
    forall l v, mem toy_trained !! l = Some v -> mem w' !! l = Some v.
Proof.
  split; [exact toy_trained_runnable|].
  eexists. split; [reflexivity|].
  eapply (train_leaves_old_buffers [[1%R]] [1%R] 3 1 0 0.01 0 0.05 toy_trained);
    [exact toy_trained_runnable | reflexivity].
Defined.
